(** * Inventory system: a shallow embedding of [inventory_system.py]

    The module keeps an inventory in a Python [dict] (item name to
    quantity), an operation log in a Python [list], and persists the
    inventory as a JSON file.  Python dictionaries iterate in insertion
    order, so the inventory is an association list; the dynamically typed
    arguments of the functions are values of [pyval]; exceptions are results
    of type [pyres], or a field of the outcome of a call; [print] calls are
    collected as a list of [message]s, and writing them to the standard
    output is taken to succeed, as is reading the clock. *)

From Stdlib Require Import ZArith String Ascii List Bool Lia.
From Stdlib Require Import DecimalString DecimalPos DecimalFacts.
From stdpp Require Import base list gmap strings.
Import ListNotations.

Local Open Scope Z_scope.
Set Warnings "-register-all".

(** ** Python values *)

(** The values of the model are those of five Python types: [NoneType],
    [bool], [int], [str], and [dict] with [str] keys, which is also the one
    unhashable type.  Every other type is left out, [float] and [list]
    among them, which [json.load] can yield too: a statement about every
    [pyval] is a statement about the values of these five types only. *)
Inductive pyval : Type :=
| PNone
| PBool (b : bool)
| PInt (z : Z)
| PStr (s : string)
| PDict (d : list (string * pyval)).

(** A dictionary with [str] keys in insertion order.  [add_item] only ever
    inserts [str] keys and a JSON object only has [str] keys. *)
Definition dict : Type := list (string * pyval).

(** The exceptions met; [msg] names the operation and the types, CPython
    words some of them differently. *)
Inductive exn : Type :=
| KeyError (key : pyval)
| TypeError (msg : string)
| ValueError (msg : string)
| JSONDecodeError            (* [json.JSONDecodeError], a [ValueError] *)
| UnicodeDecodeError         (* a [ValueError] *)
| IsADirectoryError          (* an [OSError] *)
| PermissionError.           (* an [OSError] *)

(** [isinstance(e, TypeError)], [isinstance(e, ValueError)] and
    [isinstance(e, OSError)] *)
Definition is_TypeError (e : exn) : bool :=
  match e with TypeError _ => true | _ => false end.

Definition is_ValueError (e : exn) : bool :=
  match e with
  | ValueError _ | JSONDecodeError | UnicodeDecodeError => true
  | _ => false
  end.

Definition is_OSError (e : exn) : bool :=
  match e with IsADirectoryError | PermissionError => true | _ => false end.

Inductive pyres (A : Type) : Type :=
| Ok (a : A)
| Raise (e : exn).
Arguments Ok {A} a.
Arguments Raise {A} e.

Definition bind {A B : Type} (m : pyres A) (k : A -> pyres B) : pyres B :=
  match m with
  | Ok a => k a
  | Raise e => Raise e
  end.

Notation "x <- m ;; k" := (bind m (fun x => k))
  (at level 100, m at next level, right associativity).

(** One constructor per [print] call of the module. *)
Inductive message : Type :=
| MsgInvalidTypes              (* "Invalid input types. Item must be string, qty must be integer." *)
| MsgNegative                  (* "Cannot add negative quantity." *)
| MsgNotFound (item : pyval)   (* f"Item '{item}' not found in inventory." *)
| MsgInvalidData (e : exn)     (* f"Invalid quantity or data type: {e}" *)
| MsgNoFile                    (* "No existing inventory file found. Starting fresh." *)
| MsgDecodeError               (* "Error decoding inventory file. Starting fresh." *)
| MsgSaveError.                (* f"Error saving data: {e}" *)

(** [int(v)] for the instances of [int]; [bool] is a subclass of [int]. *)
Definition as_int (v : pyval) : option Z :=
  match v with
  | PInt z => Some z
  | PBool b => Some (Z.b2z b)
  | _ => None
  end.

Definition isinstance_int (v : pyval) : bool :=
  match v with PInt _ | PBool _ => true | _ => false end.

Definition isinstance_str (v : pyval) : bool :=
  match v with PStr _ => true | _ => false end.

Definition type_name (v : pyval) : string :=
  match v with
  | PNone => "NoneType"
  | PBool _ => "bool"
  | PInt _ => "int"
  | PStr _ => "str"
  | PDict _ => "dict"
  end.

Definition unsupported (op : string) (a b : pyval) : exn :=
  TypeError ("unsupported operand type(s) for " +:+ op +:+ ": '"
             +:+ type_name a +:+ "' and '" +:+ type_name b +:+ "'").

Definition not_supported_between (op : string) (a b : pyval) : exn :=
  TypeError ("'" +:+ op +:+ "' not supported between instances of '"
             +:+ type_name a +:+ "' and '" +:+ type_name b +:+ "'").

(** [a + b] *)
Definition py_add (a b : pyval) : pyres pyval :=
  match as_int a, as_int b with
  | Some x, Some y => Ok (PInt (x + y))
  | _, _ =>
      match a, b with
      | PStr s, PStr t => Ok (PStr (s +:+ t))
      | _, _ => Raise (unsupported "+" a b)
      end
  end.

(** [a - b], also the [a -= b] of immutable operands *)
Definition py_sub (a b : pyval) : pyres pyval :=
  match as_int a, as_int b with
  | Some x, Some y => Ok (PInt (x - y))
  | _, _ => Raise (unsupported "-=" a b)
  end.

(** [a < b] *)
Definition py_lt (a b : pyval) : pyres bool :=
  match as_int a, as_int b with
  | Some x, Some y => Ok (x <? y)
  | _, _ =>
      match a, b with
      | PStr s, PStr t => Ok (String.ltb s t)
      | _, _ => Raise (not_supported_between "<" a b)
      end
  end.

(** [a <= b] *)
Definition py_le (a b : pyval) : pyres bool :=
  match as_int a, as_int b with
  | Some x, Some y => Ok (x <=? y)
  | _, _ =>
      match a, b with
      | PStr s, PStr t => Ok (String.leb s t)
      | _, _ => Raise (not_supported_between "<=" a b)
      end
  end.

(** ** Integers as text *)

(** CPython converts an [int] to its decimal text, and back, only up to
    [sys.get_int_max_str_digits()] digits, 4300 unless changed; beyond, the
    conversion raises [ValueError]. *)
Definition int_max_str_digits : nat := 4300.

(** The number of decimal digits of [z], the sign apart. *)
Definition decimal_digits (z : Z) : nat :=
  match Z.to_int z with
  | Decimal.Pos u | Decimal.Neg u => Decimal.nb_digits u
  end.

Definition fits_str (z : Z) : bool :=
  (decimal_digits z <=? int_max_str_digits)%nat.

Definition digits_error : exn :=
  ValueError "Exceeds the limit (4300 digits) for integer string conversion".

(** [str(z)] *)
Definition str_int (z : Z) : pyres string :=
  if fits_str z then Ok (NilZero.string_of_int (Z.to_int z))
  else Raise digits_error.

(** [str(v)] of an instance of [int], the only values [add_item] formats *)
Definition str_of_int (v : pyval) : pyres string :=
  match v with
  | PBool true => Ok "True"
  | PBool false => Ok "False"
  | PInt z => str_int z
  | _ => Ok EmptyString
  end.

(** The exception [str(v)] raises, if it raises: the text of a [dict] holds
    the texts of its values, in iteration order. *)
Fixpoint str_error (v : pyval) : option exn :=
  match v with
  | PInt z => if fits_str z then None else Some digits_error
  | PDict d =>
      (fix values (d : list (string * pyval)) : option exn :=
         match d with
         | [] => None
         | (_, x) :: rest =>
             match str_error x with
             | Some e => Some e
             | None => values rest
             end
         end) d
  | _ => None
  end.

(** ** Dictionaries *)

(** [d.get(k)]: the value stored under [k], if any. *)
Fixpoint dict_get (k : string) (d : dict) : option pyval :=
  match d with
  | [] => None
  | (k', v) :: rest => if String.eqb k k' then Some v else dict_get k rest
  end.

(** [d[k] = v]: an existing key keeps its place, a new key goes last. *)
Fixpoint dict_set (k : string) (v : pyval) (d : dict) : dict :=
  match d with
  | [] => [(k, v)]
  | (k', v') :: rest =>
      if String.eqb k k' then (k', v) :: rest else (k', v') :: dict_set k v rest
  end.

(** [del d[k]] *)
Fixpoint dict_del (k : string) (d : dict) : dict :=
  match d with
  | [] => []
  | (k', v') :: rest =>
      if String.eqb k k' then dict_del k rest else (k', v') :: dict_del k rest
  end.

Definition keys (d : dict) : list string := map fst d.

(** What a Python dictionary guarantees: every key occurs once. *)
Definition dict_wf (d : dict) : Prop := NoDup (keys d).

(** Hashing the key of a lookup. The keys of the dictionary are strings, so
    a hashable key of another type is never found; a [dict] is unhashable. *)
Definition hash_key (key : pyval) : pyres (option string) :=
  match key with
  | PDict _ => Raise (TypeError "unhashable type: 'dict'")
  | PStr s => Ok (Some s)
  | _ => Ok None
  end.

(** [d[key]], together with the string the key is *)
Definition dict_getitem (key : pyval) (d : dict) : pyres (string * pyval) :=
  ok <- hash_key key ;;
  match ok with
  | Some s =>
      match dict_get s d with
      | Some v => Ok (s, v)
      | None => Raise (KeyError key)
      end
  | None => Raise (KeyError key)
  end.

(** [d.get(key, dflt)] *)
Definition dict_get_default (key dflt : pyval) (d : dict) : pyres pyval :=
  ok <- hash_key key ;;
  match ok with
  | Some s => Ok (default dflt (dict_get s d))
  | None => Ok dflt
  end.

(** ** The operations of the module *)

(** What a call of [add_item] leaves behind: the objects bound to
    [stock_data] and [logs], the lines printed, and the exception that
    left the call, if any. *)
Record add_outcome : Type := AddOutcome {
  new_stock : dict;
  new_logs : list string;
  printed : list message;
  raised : option exn
}.

(** The log entry [f"{datetime.now()}: Added {qty} of {item}"]; [now] is
    the text of the clock at the call.  Formatting [qty] can raise. *)
Definition log_entry (now : string) (qty : pyval) (item : string)
    : pyres string :=
  txt <- str_of_int qty ;;
  Ok (now +:+ ": Added " +:+ txt +:+ " of " +:+ item).

(** [add_item], lines 29 to 41, on the objects bound to [logs] and
    [stock_data] once the two [is None] tests are passed.  Line 40 stores
    the sum before line 41 builds the log entry: when the entry cannot be
    built the sum stays stored and nothing is appended. *)
Definition add_item_objs (item qty : pyval) (now : string)
    (logs : list string) (stock_data : dict) : add_outcome :=
  match item, as_int qty with
  | PStr s, Some q =>
      (* isinstance(item, str) and isinstance(qty, int) *)
      if q <? 0 then
        AddOutcome stock_data logs [MsgNegative] None
      else if String.eqb s EmptyString then
        (* not item *)
        AddOutcome stock_data logs [] None
      else
        match (old <- dict_get_default item (PInt 0) stock_data ;; py_add old qty) with
        | Raise e => AddOutcome stock_data logs [] (Some e)
        | Ok v =>
            (* line 40 *)
            let stock1 := dict_set s v stock_data in
            (* line 41 *)
            match log_entry now qty s with
            | Raise e => AddOutcome stock1 logs [] (Some e)
            | Ok entry => AddOutcome stock1 (logs ++ [entry]) [] None
            end
        end
  | _, _ => AddOutcome stock_data logs [MsgInvalidTypes] None
  end.

(** What a call of [remove_item] leaves behind: the dictionary, the lines
    printed, and the exception that left the call, if any. *)
Record remove_outcome : Type := RemoveOutcome {
  stock_after : dict;
  reported : list message;
  escaped : option exn
}.

(** The handlers of [remove_item], [except KeyError] and
    [except (TypeError, ValueError) as e]: what is printed and the exception
    that leaves the call.  The first handler formats [item], which can
    raise; an exception of no handler goes on. *)
Definition remove_item_handler (item : pyval) (e : exn)
    : list message * option exn :=
  match e with
  | KeyError _ =>
      match str_error item with
      | Some e' => ([], Some e')
      | None => ([MsgNotFound item], None)
      end
  | _ =>
      if is_TypeError e || is_ValueError e then ([MsgInvalidData e], None)
      else ([], Some e)
  end.

Definition remove_item_except (item : pyval) (stock : dict) (e : exn)
    : remove_outcome :=
  RemoveOutcome stock (fst (remove_item_handler item e))
                (snd (remove_item_handler item e)).

(** [remove_item(item, qty, stock_data)] *)
Definition remove_item (item qty : pyval) (stock_data : dict)
    : remove_outcome :=
  match dict_getitem item stock_data with
  | Raise e => remove_item_except item stock_data e
  | Ok (s, old) =>
      match py_sub old qty with
      | Raise e => remove_item_except item stock_data e
      | Ok v =>
          (* stock_data[item] -= qty *)
          let stock1 := dict_set s v stock_data in
          match (kv <- dict_getitem item stock1 ;; py_le (snd kv) (PInt 0)) with
          | Raise e => remove_item_except item stock1 e
          | Ok true => RemoveOutcome (dict_del s stock1) [] None
          | Ok false => RemoveOutcome stock1 [] None
          end
      end
  end.

(** [get_qty(item, stock_data)] *)
Definition get_qty (item : pyval) (stock_data : dict) : pyres pyval :=
  dict_get_default item (PInt 0) stock_data.

(** [check_low_items(stock_data, threshold)]: the list comprehension, left
    to right; the first comparison that raises ends it. *)
Fixpoint check_low_items (stock_data : dict) (threshold : pyval)
    : pyres (list string) :=
  match stock_data with
  | [] => Ok []
  | (item, qty) :: rest =>
      b <- py_lt qty threshold ;;
      l <- check_low_items rest threshold ;;
      Ok (if b : bool then item :: l else l)
  end.

(** The defaults of [item], [qty] and [threshold] *)
Definition default_item : pyval := PStr "default".
Definition default_qty : pyval := PInt 0.
Definition default_threshold : pyval := PInt 5.

(** A run of calls on one inventory and one log, as [main] makes them: an
    exception that leaves a call ends the run. *)
Inductive call : Type :=
| CallAdd (item qty : pyval) (now : string)
| CallRemove (item qty : pyval).

Definition run_call (c : call) (st : dict * list string)
    : pyres (dict * list string) :=
  match c with
  | CallAdd item qty now =>
      let o := add_item_objs item qty now (snd st) (fst st) in
      match raised o with
      | Some e => Raise e
      | None => Ok (new_stock o, new_logs o)
      end
  | CallRemove item qty =>
      let o := remove_item item qty (fst st) in
      match escaped o with
      | Some e => Raise e
      | None => Ok (stock_after o, snd st)
      end
  end.

Fixpoint run_calls (cs : list call) (st : dict * list string)
    : pyres (dict * list string) :=
  match cs with
  | [] => Ok st
  | c :: rest => st' <- run_call c st ;; run_calls rest st'
  end.

(** ** The optional arguments of [add_item] *)

(** Dictionaries and lists are objects of the heap and the arguments
    [logs] and [stock_data] are references to them, or [None]. *)
Record heap : Type := Heap {
  dicts : list dict;
  loglists : list (list string)
}.

(** [logs = []]: a new list, after the ones there are *)
Definition alloc_list (h : heap) : heap * nat :=
  (Heap (dicts h) (loglists h ++ [[]]), length (loglists h)).

(** [stock_data = {}] *)
Definition alloc_dict (h : heap) : heap * nat :=
  (Heap (dicts h ++ [[]]) (loglists h), length (dicts h)).

(** [add_item(item, qty, logs, stock_data)], lines 14 to 41: the heap
    afterwards, the lines printed and the exception raised, if any.  The
    call returns [None]: no reference leaves it. *)
Definition add_item (item qty : pyval) (logs stock_data : option nat)
    (now : string) (h : heap) : heap * list message * option exn :=
  let '(h1, logs) :=
    match logs with None => alloc_list h | Some l => (h, l) end in
  let '(h2, stock_data) :=
    match stock_data with None => alloc_dict h1 | Some r => (h1, r) end in
  let o := add_item_objs item qty now
             (loglists h2 !!! logs) (dicts h2 !!! stock_data) in
  (Heap (<[stock_data := new_stock o]> (dicts h2))
        (<[logs := new_logs o]> (loglists h2)),
   printed o, raised o).

(** ** Persistence *)

(** What a path of the file system leads to.  A file is the text a read
    with [encoding="utf-8"] decodes, or bytes that are no UTF-8; the text
    is as written, as on POSIX where a write translates nothing. *)
Inductive node : Type :=
| File (text : string)
| Undecodable             (* a file whose bytes are not UTF-8 *)
| Directory
| Denied.                 (* a file the process may neither read nor write *)

(** How the write of [save_data] ends: the environment decides. *)
Inductive write_outcome : Type :=
| WriteOk
| OpenFails               (* [open(file_path, "w")] raises [OSError] *)
| WriteFails (n : nat).   (* [OSError] while writing or closing, [n] characters in the file *)

Definition default_path : string := "inventory.json".

(** Reading in text mode: [newline=None] turns CR LF and CR into LF. *)
Fixpoint universal_newlines (s : string) : string :=
  match s with
  | EmptyString => EmptyString
  | String c rest =>
      if Ascii.eqb c "013" then
        match rest with
        | String c' rest' =>
            if Ascii.eqb c' "010" then String "010" (universal_newlines rest')
            else String "010" (universal_newlines rest)
        | EmptyString => String "010" EmptyString
        end
      else String c (universal_newlines rest)
  end.

(** What a call of [load_data] does. *)
Inductive load_outcome : Type :=
| Returns (v : pyval) (out : list message)
| Raises (e : exn)
| Unknown.                (* [json.load] yields a value that is no [pyval] *)

(** What a call of [save_data] leaves behind. *)
Record save_outcome : Type := SaveOutcome {
  files_after : gmap string node;
  save_printed : list message;
  save_raised : option exn
}.

(** [open(file_path, "w")] on what the path leads to *)
Definition opens_for_writing (n : option node) : bool :=
  match n with
  | Some Directory | Some Denied => false
  | _ => true
  end.

Section Persistence.

(** The [json] module of the Python library is not part of the
    repository.  [json_dump v] is the text [json.dump(v, file, indent=4)]
    writes and the exception it raises, if any, the text then being what
    it wrote before.  [json_load text] is what [json.load] does on a file
    of that text: it returns a value or raises, [None] when the value is
    no [pyval]. *)
Variable json_dump : pyval -> string * option exn.
Variable json_load : string -> option (pyres pyval).

(** The file a path names: two paths of one file resolve alike. *)
Variable resolve : string -> string.

(** The files by resolved path. *)
Implicit Type fs : gmap string node.

(** [load_data(file_path)], lines 87 to 95.  Only [FileNotFoundError] and
    [json.JSONDecodeError] are handled. *)
Definition load_data (file_path : string) fs : load_outcome :=
  match fs !! resolve file_path with
  | None => Returns (PDict []) [MsgNoFile]
  | Some Directory => Raises IsADirectoryError
  | Some Denied => Raises PermissionError
  | Some Undecodable => Raises UnicodeDecodeError
  | Some (File text) =>
      match json_load (universal_newlines text) with
      | Some (Ok v) => Returns v []
      | Some (Raise JSONDecodeError) => Returns (PDict []) [MsgDecodeError]
      | Some (Raise e) => Raises e
      | None => Unknown
      end
  end.

(** [save_data(stock_data, file_path)], lines 106 to 110.  Opening for
    writing truncates the file; only [OSError] is handled, so another
    exception of [json.dump] leaves the call, with the file holding what
    was written before. *)
Definition save_data (stock_data : dict) (file_path : string)
    (io : write_outcome) fs : save_outcome :=
  let file := resolve file_path in
  let text := fst (json_dump (PDict stock_data)) in
  if opens_for_writing (fs !! file) then
    match io with
    | OpenFails => SaveOutcome fs [MsgSaveError] None
    | WriteFails n =>
        SaveOutcome (<[file := File (String.substring 0 n text)]> fs)
                    [MsgSaveError] None
    | WriteOk =>
        match snd (json_dump (PDict stock_data)) with
        | None => SaveOutcome (<[file := File text]> fs) [] None
        | Some e =>
            if is_OSError e
            then SaveOutcome (<[file := File text]> fs) [MsgSaveError] None
            else SaveOutcome (<[file := File text]> fs) [] (Some e)
        end
    end
  else SaveOutcome fs [MsgSaveError] None.

End Persistence.

(** ** A codec for the file format

    The encoder and the decoder of the [json] module on the texts the
    module writes: a JSON object with string keys whose values are
    integers, strings, [true], [false] and [null], indented by four
    spaces, and these scalars alone.  The decoder answers [Unmodelled] on
    every text that goes beyond: arrays, floats, objects in objects,
    [NaN] and [Infinity], escapes of code points above 255. *)
Module Codec.

Local Open Scope string_scope.

Definition quote : ascii := "034"%char.
Definition nl : string := String "010" EmptyString.

Definition hex (n : N) : ascii :=
  ascii_of_N (if (n <? 10)%N then 48 + n else 87 + n).

(** [ensure_ascii]: everything outside of space to tilde is escaped. *)
Definition escape (c : ascii) : string :=
  let n := N_of_ascii c in
  if Ascii.eqb c quote then String "\" (String quote EmptyString)
  else if Ascii.eqb c "\" then "\\"
  else if Ascii.eqb c "010" then "\n"
  else if Ascii.eqb c "013" then "\r"
  else if Ascii.eqb c "009" then "\t"
  else if Ascii.eqb c "008" then "\b"
  else if Ascii.eqb c "012" then "\f"
  else if ((n <? 32) || (126 <? n))%N
       then "\u00" +:+ String (hex (n / 16)) (String (hex (n mod 16)) EmptyString)
       else String c EmptyString.

Fixpoint escape_all (s : string) : string :=
  match s with
  | EmptyString => EmptyString
  | String c rest => escape c +:+ escape_all rest
  end.

Definition dump_str (s : string) : string :=
  String quote (escape_all s) +:+ String quote EmptyString.

Fixpoint pad (n : nat) : string :=
  match n with O => EmptyString | S n => String " " (pad n) end.

Section Members.

Variable dump : pyval -> string * option exn.
Variable indent : nat.

(** The members of an object, one per line, as far as they get written:
    the encoder yields the key and the colon before it converts the
    value. *)
Fixpoint dump_members (d : dict) : string * option exn :=
  match d with
  | [] => (EmptyString, None)
  | (k, x) :: rest =>
      match snd (dump x) with
      | Some e => (pad indent +:+ dump_str k +:+ ": " +:+ fst (dump x), Some e)
      | None =>
          match rest with
          | [] =>
              (pad indent +:+ dump_str k +:+ ": " +:+ fst (dump x) +:+ nl, None)
          | _ :: _ =>
              (pad indent +:+ dump_str k +:+ ": " +:+ fst (dump x) +:+ ","
               +:+ nl +:+ fst (dump_members rest),
               snd (dump_members rest))
          end
      end
  end.

End Members.

(** [json.dump(v, file, indent=4)] at a nesting depth *)
Fixpoint dump_at (indent : nat) (v : pyval) : string * option exn :=
  match v with
  | PNone => ("null", None)
  | PBool true => ("true", None)
  | PBool false => ("false", None)
  | PInt z =>
      match str_int z with
      | Ok txt => (txt, None)
      | Raise e => (EmptyString, Some e)
      end
  | PStr s => (dump_str s, None)
  | PDict [] => ("{}", None)
  | PDict d =>
      let body := dump_members (dump_at (indent + 4)) (indent + 4) d in
      match snd body with
      | None => ("{" +:+ nl +:+ fst body +:+ pad indent +:+ "}", None)
      | Some e => ("{" +:+ nl +:+ fst body, Some e)
      end
  end.

Definition dump (v : pyval) : string * option exn := dump_at 0 v.

Section MembersText.

Variable text : pyval -> string.
Variable indent : nat.

Fixpoint text_members (d : dict) : string :=
  match d with
  | [] => EmptyString
  | [(k, x)] => pad indent +:+ dump_str k +:+ ": " +:+ text x +:+ nl
  | (k, x) :: rest =>
      pad indent +:+ dump_str k +:+ ": " +:+ text x +:+ "," +:+ nl
      +:+ text_members rest
  end.

End MembersText.

(** The text of a value none of whose integers is too long to write. *)
Fixpoint text_at (indent : nat) (v : pyval) : string :=
  match v with
  | PNone => "null"
  | PBool true => "true"
  | PBool false => "false"
  | PInt z => NilZero.string_of_int (Z.to_int z)
  | PStr s => dump_str s
  | PDict [] => "{}"
  | PDict d =>
      "{" +:+ nl +:+ text_members (text_at (indent + 4)) (indent + 4) d
      +:+ pad indent +:+ "}"
  end.

Definition dumps (v : pyval) : string := text_at 0 v.

(** What reading a piece of the text gives: the piece and the rest of the
    text, or the way it fails. *)
Inductive parsed (A : Type) : Type :=
| Got (a : A) (rest : string)
| Malformed               (* [json.JSONDecodeError] *)
| TooLong                 (* [ValueError]: an integer of more than 4300 digits *)
| Unmodelled.
Arguments Got {A} a rest.
Arguments Malformed {A}.
Arguments TooLong {A}.
Arguments Unmodelled {A}.

Definition parsed_map {A B : Type} (f : A -> B) (r : parsed A) : parsed B :=
  match r with
  | Got a rest => Got (f a) rest
  | Malformed => Malformed
  | TooLong => TooLong
  | Unmodelled => Unmodelled
  end.

Definition is_ws (c : ascii) : bool :=
  Ascii.eqb c " " || Ascii.eqb c "010" || Ascii.eqb c "013" || Ascii.eqb c "009".

Fixpoint skip_ws (s : string) : string :=
  match s with
  | String c rest => if is_ws c then skip_ws rest else s
  | EmptyString => EmptyString
  end.

Definition unhex (c : ascii) : option N :=
  let n := N_of_ascii c in
  if ((48 <=? n) && (n <=? 57))%N then Some (n - 48)%N
  else if ((97 <=? n) && (n <=? 102))%N then Some (n - 87)%N
  else if ((65 <=? n) && (n <=? 70))%N then Some (n - 55)%N
  else None.

(** One more character in front of the body read so far. *)
Definition cons_body (c : ascii) (r : parsed string) : parsed string :=
  parsed_map (String c) r.

(** The characters of a string literal after its opening quote, and the
    rest of the text after its closing quote.  Of the [\u] escapes only
    those of the code points below 256, with four hexadecimal digits, are
    known. *)
Fixpoint read_str (s : string) : parsed string :=
  match s with
  | EmptyString => Malformed
  | String c rest =>
      if Ascii.eqb c quote then Got EmptyString rest
      else if Ascii.eqb c "\" then
        match rest with
        | EmptyString => Malformed
        | String e rest1 =>
            if Ascii.eqb e "u" then
              match rest1 with
              | String z1 (String z2 (String h (String l rest2))) =>
                  match unhex h, unhex l with
                  | Some a, Some b =>
                      if Ascii.eqb z1 "0" && Ascii.eqb z2 "0"
                      then cons_body (ascii_of_N (16 * a + b)) (read_str rest2)
                      else Unmodelled
                  | _, _ => Unmodelled
                  end
              | _ => Unmodelled
              end
            else if Ascii.eqb e quote then cons_body quote (read_str rest1)
            else if Ascii.eqb e "\" then cons_body "\"%char (read_str rest1)
            else if Ascii.eqb e "/" then cons_body "/"%char (read_str rest1)
            else if Ascii.eqb e "n" then cons_body "010"%char (read_str rest1)
            else if Ascii.eqb e "r" then cons_body "013"%char (read_str rest1)
            else if Ascii.eqb e "t" then cons_body "009"%char (read_str rest1)
            else if Ascii.eqb e "b" then cons_body "008"%char (read_str rest1)
            else if Ascii.eqb e "f" then cons_body "012"%char (read_str rest1)
            else Malformed
        end
      else if (N_of_ascii c <? 32)%N then Malformed
      else cons_body c (read_str rest)
  end.

Definition is_digit (c : ascii) : bool :=
  let n := N_of_ascii c in ((48 <=? n) && (n <=? 57))%N.

Definition digit (c : ascii) : option Z :=
  let n := N_of_ascii c in
  if ((48 <=? n) && (n <=? 57))%N then Some (Z.of_N n - 48)%Z else None.

Fixpoint read_digits (acc : Z) (s : string) : Z * string :=
  match s with
  | String c rest =>
      match digit c with
      | Some k => read_digits (10 * acc + k)%Z rest
      | None => (acc, s)
      end
  | EmptyString => (acc, EmptyString)
  end.

(** The text goes on as the fraction or the exponent of a float. *)
Definition float_tail (s : string) : bool :=
  match s with
  | String c _ => Ascii.eqb c "." || Ascii.eqb c "e" || Ascii.eqb c "E"
  | EmptyString => false
  end.

(** The digits of an integer: [0], or digits without a leading zero. *)
Definition read_unsigned (s : string) : parsed Z :=
  match s with
  | String c rest =>
      if Ascii.eqb c "0" then
        if float_tail rest then Unmodelled else Got 0%Z rest
      else if is_digit c then
        if float_tail (snd (read_digits 0 s)) then Unmodelled
        else if fits_str (fst (read_digits 0 s))
             then Got (fst (read_digits 0 s)) (snd (read_digits 0 s))
             else TooLong
      else Malformed
  | EmptyString => Malformed
  end.

(** An integer: an optional sign, then the digits. *)
Definition read_int (s : string) : parsed Z :=
  match s with
  | String c rest =>
      if Ascii.eqb c "-" then
        match rest with
        | String c' _ =>
            if Ascii.eqb c' "I" then Unmodelled
            else parsed_map Z.opp (read_unsigned rest)
        | EmptyString => Malformed
        end
      else read_unsigned s
  | EmptyString => Malformed
  end.

Definition literal (word : string) (v : pyval) (s : string) : parsed pyval :=
  if String.prefix word s
  then Got v (String.substring (String.length word)
                (String.length s - String.length word) s)
  else Malformed.

(** A value that is no object, at the start of [s]. *)
Definition read_scalar (s : string) : parsed pyval :=
  match s with
  | String c rest =>
      if Ascii.eqb c quote then parsed_map PStr (read_str rest)
      else if Ascii.eqb c "n" then literal "null" PNone s
      else if Ascii.eqb c "t" then literal "true" (PBool true) s
      else if Ascii.eqb c "f" then literal "false" (PBool false) s
      else if Ascii.eqb c "-" || is_digit c then parsed_map PInt (read_int s)
      else if Ascii.eqb c "{" || Ascii.eqb c "[" || Ascii.eqb c "N"
              || Ascii.eqb c "I" then Unmodelled
      else Malformed
  | EmptyString => Malformed
  end.

(** The members of an object after its opening brace, up to the closing
    one; a key met again keeps its place and takes the later value. *)
Fixpoint read_members (fuel : nat) (acc : dict) (s : string) : parsed pyval :=
  match fuel with
  | O => Unmodelled
  | S fuel =>
      match skip_ws s with
      | String c rest =>
          if Ascii.eqb c quote then
            match read_str rest with
            | Got k rest1 =>
                match skip_ws rest1 with
                | String c1 rest2 =>
                    if Ascii.eqb c1 ":" then
                      match read_scalar (skip_ws rest2) with
                      | Got v rest3 =>
                          match skip_ws rest3 with
                          | String c3 rest4 =>
                              if Ascii.eqb c3 "," then
                                read_members fuel (dict_set k v acc) rest4
                              else if Ascii.eqb c3 "}" then
                                Got (PDict (dict_set k v acc)) rest4
                              else Malformed
                          | EmptyString => Malformed
                          end
                      | Malformed => Malformed
                      | TooLong => TooLong
                      | Unmodelled => Unmodelled
                      end
                    else Malformed
                | EmptyString => Malformed
                end
            | Malformed => Malformed
            | TooLong => TooLong
            | Unmodelled => Unmodelled
            end
          else Malformed
      | EmptyString => Malformed
      end
  end.

(** A value at the start of the text, leading white space apart. *)
Definition read_value (s : string) : parsed pyval :=
  match skip_ws s with
  | String c rest =>
      if Ascii.eqb c "{" then
        match skip_ws rest with
        | String c' rest' =>
            if Ascii.eqb c' "}" then Got (PDict []) rest'
            else read_members (String.length rest) [] rest
        | EmptyString => Malformed
        end
      else read_scalar (skip_ws s)
  | EmptyString => Malformed
  end.

(** [json.load] on a file of the text *)
Definition load (text : string) : option (pyres pyval) :=
  match read_value text with
  | Got v rest =>
      match skip_ws rest with
      | EmptyString => Some (Ok v)
      | String _ _ => Some (Raise JSONDecodeError)
      end
  | Malformed => Some (Raise JSONDecodeError)
  | TooLong => Some (Raise digits_error)
  | Unmodelled => None
  end.

(** The characters a JSON value can start with, [null], [true] and
    [false] apart. *)
Definition value_start (c : ascii) : bool :=
  Ascii.eqb c quote || Ascii.eqb c "{" || Ascii.eqb c "[" || Ascii.eqb c "-"
  || is_digit c || Ascii.eqb c "N" || Ascii.eqb c "I".

(** A text, leading white space apart, that starts no JSON value: it is
    empty, or its first character starts none. *)
Definition not_json (s : string) : bool :=
  match s with
  | EmptyString => true
  | String c _ =>
      if Ascii.eqb c "n" then negb (String.prefix "null" s)
      else if Ascii.eqb c "t" then negb (String.prefix "true" s)
      else if Ascii.eqb c "f" then negb (String.prefix "false" s)
      else negb (value_start c)
  end.

(** A text that does not go on with a digit. *)
Definition starts_nondigit (s : string) : Prop :=
  match s with
  | EmptyString => True
  | String c _ => is_digit c = false
  end.

(** The end of an integer: neither a digit nor the start of a fraction or
    of an exponent. *)
Definition number_end (rest : string) : Prop :=
  starts_nondigit rest /\ float_tail rest = false.

(** A text without carriage return. *)
Fixpoint no_cr (s : string) : Prop :=
  match s with
  | EmptyString => True
  | String c rest => Ascii.eqb c "013" = false /\ no_cr rest
  end.

End Codec.

(** ** Vocabulary of the statements *)

(** The value stored for [item], when [item] is a key of the inventory. *)
Definition stored (item : pyval) (d : dict) : option pyval :=
  match item with
  | PStr s => dict_get s d
  | _ => None
  end.

Definition hashable (v : pyval) : bool :=
  match v with PDict _ => false | _ => true end.

(** Every stored value is an instance of [int]. *)
Definition int_valued (d : dict) : Prop :=
  Forall (fun kv => as_int (snd kv) <> None) d.

(** Every stored value is an [int] proper, as [add_item] stores them. *)
Definition ints_only (d : dict) : Prop :=
  Forall (fun kv => exists z, snd kv = PInt z) d.

(** A value that is [None], a [str] or a [dict]: no operand of the
    arithmetic and the comparisons with an [int]. *)
Definition no_number (v : pyval) : Prop :=
  match v with
  | PNone | PStr _ | PDict _ => True
  | PBool _ | PInt _ => False
  end.

(** Every stored [int] has a decimal text. *)
Definition all_fit (d : dict) : Prop :=
  Forall (fun kv => forall z, snd kv = PInt z -> fits_str z = true) d.

(** The quantity a stored value stands for. *)
Definition quantity (v : pyval) : Z := default 0 (as_int v).

(** Every stored value is an [int] above [bound]. *)
Definition stock_above (bound : Z) (d : dict) : Prop :=
  Forall (fun kv => exists q, snd kv = PInt q /\ bound < q) d.

(** The invariant of the data model: no entry has a quantity [<= 0]. *)
Definition positive_stock (d : dict) : Prop := stock_above 0 d.

(** Quantities are not negative. *)
Definition nonneg_stock (d : dict) : Prop := stock_above (-1) d.

(** The conditions under which [add_item] is said to reject. *)
Definition add_rejects (item qty : pyval) : Prop :=
  isinstance_str item = false \/ isinstance_int qty = false \/
  (exists q, as_int qty = Some q /\ q < 0) \/ item = PStr EmptyString.

(** A call [add_item(item, qty)] with a [str] and an [int], at time [now]. *)
Definition add_call (c : string * Z * string) : call :=
  CallAdd (PStr (fst (fst c))) (PInt (snd (fst c))) (snd c).

Definition valid_add (c : string * Z * string) : Prop :=
  fst (fst c) <> EmptyString /\ 0 <= snd (fst c).

(** The quantity of the call has a decimal text. *)
Definition short_add (c : string * Z * string) : Prop :=
  fits_str (snd (fst c)) = true.

(** The sum of the quantities the calls add for [item]. *)
Fixpoint added (item : string) (cs : list (string * Z * string)) : Z :=
  match cs with
  | [] => 0
  | c :: rest =>
      (if String.eqb item (fst (fst c)) then snd (fst c) else 0) + added item rest
  end.

(** What [get_qty] finds for the key [k]. *)
Definition qty_of (k : string) (d : dict) : pyval :=
  default (PInt 0) (dict_get k d).

(** A call of [add_item] with the quantity 0. *)
Definition adds_zero (c : call) : Prop :=
  match c with
  | CallAdd _ qty _ => as_int qty = Some 0
  | CallRemove _ _ => False
  end.

(** The quantity of a [remove_item] call is an instance of [int]. *)
Definition removes_int (c : call) : Prop :=
  match c with
  | CallAdd _ _ _ => True
  | CallRemove _ qty => as_int qty <> None
  end.

(** The argument the call may have to format has a text: the quantity of
    [add_item], the item of [remove_item]. *)
Definition formats (c : call) : Prop :=
  match c with
  | CallAdd _ qty _ => str_error qty = None
  | CallRemove item _ => str_error item = None
  end.

(** No key of the inventory is the empty string. *)
Definition keys_nonempty (d : dict) : Prop :=
  Forall (fun k => k <> EmptyString) (keys d).

(** The number of [add_item] calls of a run. *)
Fixpoint count_adds (cs : list call) : nat :=
  match cs with
  | [] => O
  | CallAdd _ _ _ :: rest => S (count_adds rest)
  | CallRemove _ _ :: rest => count_adds rest
  end.

(** An integer of 4301 digits. *)
Definition huge : Z := 10 ^ 4300.

(** The arguments pass the guards of [add_item]: [item] is the non-empty
    string [s] and [qty] an instance of [int] of value [q >= 0]. *)
Definition add_accepts (item qty : pyval) (s : string) (q : Z) : Prop :=
  item = PStr s /\ s <> EmptyString /\ as_int qty = Some q /\ 0 <= q.

(** The text of the log entry, given the text of the quantity. *)
Definition entry_text (now txt item : string) : string :=
  now +:+ ": Added " +:+ txt +:+ " of " +:+ item.

(** * Properties *)

(** ** Dictionaries *)

Section DictFacts.

Implicit Types (k : string) (v : pyval) (d : dict).

Lemma dict_get_set_eq k v d : dict_get k (dict_set k v d) = Some v.
Proof.
  induction d as [|[k' v'] d IH]; simpl.
  - by rewrite String.eqb_refl.
  - destruct (String.eqb k k') eqn:E; simpl; by rewrite E.
Qed.

Lemma dict_get_set_ne k k' v d :
  k <> k' -> dict_get k' (dict_set k v d) = dict_get k' d.
Proof.
  intros Hne. induction d as [|[k0 v0] d IH]; simpl.
  - apply not_eq_sym, String.eqb_neq in Hne. by rewrite Hne.
  - destruct (String.eqb k k0) eqn:E; simpl; [|by rewrite IH].
    apply String.eqb_eq in E. subst k0.
    apply not_eq_sym, String.eqb_neq in Hne. by rewrite Hne.
Qed.

Lemma dict_get_del_eq k d : dict_get k (dict_del k d) = None.
Proof.
  induction d as [|[k' v'] d IH]; simpl; [done|].
  destruct (String.eqb k k') eqn:E; simpl; [done|]. by rewrite E.
Qed.

Lemma dict_get_del_ne k k' d :
  k <> k' -> dict_get k' (dict_del k d) = dict_get k' d.
Proof.
  intros Hne. induction d as [|[k0 v0] d IH]; simpl; [done|].
  destruct (String.eqb k k0) eqn:E; simpl; [|by rewrite IH].
  apply String.eqb_eq in E. subst k0.
  apply not_eq_sym, String.eqb_neq in Hne. by rewrite Hne.
Qed.

Lemma dict_set_same k v d : dict_get k d = Some v -> dict_set k v d = d.
Proof.
  induction d as [|[k' v'] d IH]; simpl; [done|].
  destruct (String.eqb k k') eqn:E; [by intros [= ->]|].
  intros H. by rewrite IH.
Qed.

Lemma dict_get_In k v d : dict_get k d = Some v -> In (k, v) d.
Proof.
  induction d as [|[k' v'] d IH]; simpl; [done|].
  destruct (String.eqb k k') eqn:E; [|by right; apply IH].
  apply String.eqb_eq in E. intros [= ->]. left. by subst.
Qed.

Lemma dict_get_None_keys k d : dict_get k d = None <-> ~ In k (keys d).
Proof.
  induction d as [|[k' v'] d IH]; simpl; [tauto|].
  destruct (String.eqb k k') eqn:E.
  - apply String.eqb_eq in E. split; [done|]. intros H. destruct H. by left.
  - apply String.eqb_neq in E. rewrite IH. split; [|tauto].
    intros H [H1|H1]; [by subst|done].
Qed.

(** Storing under a key that is there keeps the keys and their order. *)
Lemma keys_set_present k v d :
  dict_get k d <> None -> keys (dict_set k v d) = keys d.
Proof.
  induction d as [|[k' v'] d IH]; simpl; [done|].
  destruct (String.eqb k k') eqn:E; simpl; [done|].
  intros H. f_equal. by apply IH.
Qed.

(** Storing under a new key puts it last. *)
Lemma keys_set_absent k v d :
  dict_get k d = None -> dict_set k v d = d ++ [(k, v)].
Proof.
  induction d as [|[k' v'] d IH]; simpl; [done|].
  destruct (String.eqb k k') eqn:E; simpl; [done|].
  intros H. f_equal. by apply IH.
Qed.

Lemma In_dict_set kv k v d : In kv (dict_set k v d) -> kv = (k, v) \/ In kv d.
Proof.
  induction d as [|[k' v'] d IH]; simpl.
  - intros [<-|[]]. by left.
  - destruct (String.eqb k k') eqn:E; simpl.
    + apply String.eqb_eq in E. subst k'. intros [<-|H]; [by left|by right; right].
    + intros [<-|H]; [by right; left|]. destruct (IH H); [by left|by right; right].
Qed.

Lemma In_dict_del kv k d : In kv (dict_del k d) -> In kv d /\ fst kv <> k.
Proof.
  induction d as [|[k' v'] d IH]; simpl; [done|].
  destruct (String.eqb k k') eqn:E; simpl.
  - intros H. destruct (IH H). split; [by right|done].
  - apply String.eqb_neq in E. intros [<-|H]; [split; [by left|by simpl]|].
    destruct (IH H). split; [by right|done].
Qed.

Lemma dict_wf_set k v d : dict_wf d -> dict_wf (dict_set k v d).
Proof.
  unfold dict_wf. intros Hwf.
  destruct (dict_get k d) eqn:E.
  - rewrite keys_set_present; [done|]. by rewrite E.
  - rewrite (keys_set_absent _ _ _ E). unfold keys. rewrite map_app. simpl.
    apply dict_get_None_keys in E.
    apply NoDup_app. split; [done|]. split; [|apply NoDup_singleton].
    intros x Hx Hin. apply list_elem_of_In in Hx.
    apply list_elem_of_singleton in Hin. by subst.
Qed.

Lemma dict_wf_del k d : dict_wf d -> dict_wf (dict_del k d).
Proof.
  unfold dict_wf, keys. induction d as [|[k' v'] d IH]; simpl; [done|].
  intros Hwf. apply NoDup_cons in Hwf as [Hnin Hwf].
  destruct (String.eqb k k'); simpl; [by apply IH|].
  apply NoDup_cons. split; [|by apply IH].
  intros Hin. apply Hnin. apply list_elem_of_In in Hin. apply list_elem_of_In.
  apply in_map_iff in Hin as [kv [Hk Hin]]. apply In_dict_del in Hin as [Hin _].
  apply in_map_iff. by exists kv.
Qed.

End DictFacts.

(** ** Integers as text *)

Section Formatting.

Implicit Types (v qty : pyval) (z q : Z).

(** An integer of 4301 digits has no text. *)
Lemma fits_str_huge : fits_str huge = false.
Proof. vm_compute. reflexivity. Qed.

Lemma str_error_int v q : as_int v = Some q -> str_error v = None ->
  exists txt, str_of_int v = Ok txt.
Proof.
  destruct v as [|b|z| |]; try done; simpl.
  - destruct b; by eexists.
  - unfold str_int. destruct (fits_str z); [by eexists|done].
Qed.

Lemma str_of_int_raises v q e : as_int v = Some q ->
  str_of_int v = Raise e -> str_error v = Some e.
Proof.
  destruct v as [|b|z| |]; try done; simpl.
  - by destruct b.
  - unfold str_int. destruct (fits_str z); [done|]. by intros _ [= <-].
Qed.

Lemma str_of_int_ok v txt : str_of_int v = Ok txt -> str_error v = None \/ as_int v = None.
Proof.
  destruct v as [|b|z| |]; simpl; auto.
  unfold str_int. destruct (fits_str z); [auto|done].
Qed.

Lemma log_entry_ok now qty s q :
  as_int qty = Some q -> str_error qty = None ->
  exists txt, str_of_int qty = Ok txt /\
    log_entry now qty s = Ok (now +:+ ": Added " +:+ txt +:+ " of " +:+ s).
Proof.
  intros Hq Hs. destruct (str_error_int _ _ Hq Hs) as [txt Htxt].
  exists txt. split; [done|]. unfold log_entry. by rewrite Htxt.
Qed.

Lemma log_entry_raises now qty s q e :
  as_int qty = Some q -> log_entry now qty s = Raise e -> str_error qty = Some e.
Proof.
  intros Hq. unfold log_entry.
  destruct (str_of_int qty) as [txt|e'] eqn:Hs; simpl; [done|].
  intros [= <-]. by apply (str_of_int_raises _ q).
Qed.

Lemma log_entry_huge now s :
  log_entry now (PInt huge) s = Raise digits_error.
Proof.
  unfold log_entry, str_of_int, str_int. rewrite fits_str_huge. reflexivity.
Qed.

End Formatting.

(** ** [remove_item] *)

Section RemoveItem.

Implicit Types (s : string) (d : dict) (item qty old : pyval).

(** The call on a numeric stored value and a numeric [qty]. *)
Lemma remove_item_numeric s d old qty x y :
  dict_get s d = Some old -> as_int old = Some x -> as_int qty = Some y ->
  remove_item (PStr s) qty d =
    RemoveOutcome
      (if x - y <=? 0 then dict_del s (dict_set s (PInt (x - y)) d)
       else dict_set s (PInt (x - y)) d) [] None.
Proof.
  intros Hget Hx Hy. unfold remove_item, dict_getitem. simpl.
  rewrite Hget. unfold py_sub. rewrite Hx, Hy.
  rewrite dict_get_set_eq. simpl. by destruct (x - y <=? 0).
Qed.

(** The [KeyError] handler: it prints, unless [item] has no text. *)
Lemma remove_item_absent item qty d :
  hashable item = true -> stored item d = None ->
  remove_item item qty d =
    match str_error item with
    | None => RemoveOutcome d [MsgNotFound item] None
    | Some e => RemoveOutcome d [] (Some e)
    end.
Proof.
  intros Hh Hs. unfold remove_item, dict_getitem.
  destruct item as [|b|z|s|]; try done.
  - simpl. unfold remove_item_except. simpl. by destruct (fits_str z).
  - simpl in *. by rewrite Hs.
Qed.

Lemma remove_item_unhashable item qty d :
  hashable item = false ->
  exists e, remove_item item qty d = RemoveOutcome d [MsgInvalidData e] None.
Proof. destruct item; try done. intros _. by eexists. Qed.

Lemma remove_item_not_numeric item qty d old :
  stored item d = Some old -> as_int qty = None \/ as_int old = None ->
  exists e, remove_item item qty d = RemoveOutcome d [MsgInvalidData e] None.
Proof.
  intros Hs Hnum. destruct item; simpl in Hs; try done.
  unfold remove_item, dict_getitem. simpl. rewrite Hs.
  unfold py_sub. destruct Hnum as [-> | ->].
  - destruct (as_int old); by eexists.
  - by eexists.
Qed.

(** The shapes of the outcome: the inventory is as it was, or nothing was
    printed and nothing raised. *)
Lemma remove_item_cases item qty d :
  stock_after (remove_item item qty d) = d \/
  (reported (remove_item item qty d) = [] /\
   escaped (remove_item item qty d) = None).
Proof.
  destruct (hashable item) eqn:Hh.
  2:{ destruct (remove_item_unhashable item qty d Hh) as [e ->]. by left. }
  destruct (stored item d) as [old|] eqn:Hs.
  2:{ rewrite remove_item_absent by done. left. by destruct (str_error item). }
  destruct (as_int qty) as [y|] eqn:Hy.
  2:{ destruct (remove_item_not_numeric item qty d old Hs) as [e ->]; auto. }
  destruct (as_int old) as [x|] eqn:Hx.
  2:{ destruct (remove_item_not_numeric item qty d old Hs) as [e ->]; auto. }
  destruct item; simpl in Hs; try done.
  rewrite (remove_item_numeric _ _ _ _ _ _ Hs Hx Hy). by right.
Qed.

(** A call that prints has changed nothing. *)
Lemma remove_item_report_unchanged item qty d :
  reported (remove_item item qty d) <> [] ->
  stock_after (remove_item item qty d) = d.
Proof. destruct (remove_item_cases item qty d) as [H|[H _]]; [done|]. by rewrite H. Qed.

(** Nor has a call that an exception leaves. *)
Lemma remove_item_escape_unchanged item qty d :
  escaped (remove_item item qty d) <> None ->
  stock_after (remove_item item qty d) = d.
Proof. destruct (remove_item_cases item qty d) as [H|[_ H]]; [done|]. by rewrite H. Qed.

(** The one exception that leaves [remove_item]: the text of an [item]
    that is not found cannot be built. *)
Lemma remove_item_escapes item qty d e :
  escaped (remove_item item qty d) = Some e ->
  hashable item = true /\ stored item d = None /\ str_error item = Some e.
Proof.
  destruct (hashable item) eqn:Hh.
  2:{ destruct (remove_item_unhashable item qty d Hh) as [e' ->]. done. }
  destruct (stored item d) as [old|] eqn:Hs.
  2:{ rewrite remove_item_absent by done.
      destruct (str_error item); [by intros [= ->]|done]. }
  destruct (as_int qty) as [y|] eqn:Hy.
  2:{ destruct (remove_item_not_numeric item qty d old Hs) as [e' ->]; auto. done. }
  destruct (as_int old) as [x|] eqn:Hx.
  2:{ destruct (remove_item_not_numeric item qty d old Hs) as [e' ->]; auto. done. }
  destruct item; simpl in Hs; try done.
  by rewrite (remove_item_numeric _ _ _ _ _ _ Hs Hx Hy).
Qed.

End RemoveItem.

(** C3: when [item] is stored with the integer [q] and [qty >= q],
    [remove_item(item, qty)] returns and leaves [item] out of the
    inventory, and [get_qty(item)] then returns 0. *)
Theorem remove_item_at_least_stored (s : string) (q qty : Z) (d : dict) :
  dict_get s d = Some (PInt q) -> q <= qty ->
  let d' := stock_after (remove_item (PStr s) (PInt qty) d) in
  dict_get s d' = None /\ ~ In s (keys d') /\ get_qty (PStr s) d' = Ok (PInt 0) /\
  escaped (remove_item (PStr s) (PInt qty) d) = None.
Proof.
  intros Hget Hle d'. subst d'.
  rewrite (remove_item_numeric s d (PInt q) (PInt qty) q qty Hget); [|done..].
  replace (q - qty <=? 0) with true by lia. simpl.
  assert (dict_get s (dict_del s (dict_set s (PInt (q - qty)) d)) = None) as Hnone
    by apply dict_get_del_eq.
  split; [done|]. split; [by apply dict_get_None_keys|]. split; [|done].
  unfold get_qty, dict_get_default. simpl. by rewrite Hnone.
Qed.

Lemma remove_item_at_least_stored_witness :
  let d := [("apple", PInt 7); ("pear", PInt 2)] in
  let d' := stock_after (remove_item (PStr "apple") (PInt 9) d) in
  d' = [("pear", PInt 2)] /\
  dict_get "apple" d' = None /\ ~ In "apple" (keys d') /\
  get_qty (PStr "apple") d' = Ok (PInt 0) /\
  escaped (remove_item (PStr "apple") (PInt 9) d) = None.
Proof.
  split; [reflexivity|].
  apply (remove_item_at_least_stored "apple" 7 9
           [("apple", PInt 7); ("pear", PInt 2)]); [reflexivity|lia].
Defined.

(** C4: [remove_item] leaves the inventory as it is on both of its error
    paths: [item] is not in the inventory (not found; the message is
    printed, unless [item] is an integer of more than 4300 digits, whose
    text cannot be built: then [ValueError] leaves the call), and [qty] or
    the value stored for [item] is not a number (invalid data).  More
    generally a call that reports anything, or that an exception leaves,
    has changed nothing. *)
Theorem remove_item_errors_unchanged (item qty : pyval) (d : dict) :
  (hashable item = true -> stored item d = None ->
     stock_after (remove_item item qty d) = d /\
     (str_error item = None ->
        remove_item item qty d = RemoveOutcome d [MsgNotFound item] None) /\
     (forall e, str_error item = Some e ->
        remove_item item qty d = RemoveOutcome d [] (Some e))) /\
  (forall old, stored item d = Some old ->
     as_int qty = None \/ as_int old = None ->
     exists e, remove_item item qty d = RemoveOutcome d [MsgInvalidData e] None) /\
  (reported (remove_item item qty d) <> [] ->
     stock_after (remove_item item qty d) = d) /\
  (escaped (remove_item item qty d) <> None ->
     stock_after (remove_item item qty d) = d).
Proof.
  split.
  { intros Hh Hs. rewrite remove_item_absent by done.
    split; [by destruct (str_error item)|].
    split; [by intros ->|by intros e ->]. }
  split; [apply remove_item_not_numeric|].
  split; [apply remove_item_report_unchanged|apply remove_item_escape_unchanged].
Qed.

Lemma remove_item_errors_unchanged_witness :
  let d := [("apple", PInt 7); ("note", PStr "x")] in
  remove_item (PStr "orange") (PInt 1) d
    = RemoveOutcome d [MsgNotFound (PStr "orange")] None /\
  (exists e, remove_item (PStr "apple") (PStr "three") d
             = RemoveOutcome d [MsgInvalidData e] None) /\
  (exists e, remove_item (PStr "note") (PInt 1) d
             = RemoveOutcome d [MsgInvalidData e] None) /\
  stock_after (remove_item (PStr "orange") (PInt 1) d) = d.
Proof.
  pose (d := [("apple", PInt 7); ("note", PStr "x")] : dict).
  destruct (remove_item_errors_unchanged (PStr "orange") (PInt 1) d) as (Ha & _ & Hc & _).
  destruct (remove_item_errors_unchanged (PStr "apple") (PStr "three") d) as (_ & Hb1 & _).
  destruct (remove_item_errors_unchanged (PStr "note") (PInt 1) d) as (_ & Hb2 & _).
  split; [apply Ha; reflexivity|].
  split; [apply (Hb1 (PInt 7)); [reflexivity|by left]|].
  split; [apply (Hb2 (PStr "x")); [reflexivity|by right]|].
  apply Hc. vm_compute. discriminate.
Defined.

(** C5: when [item] is stored with the integer [q > 0] and [qty] is a
    negative integer, [remove_item(item, qty)] raises the stored quantity
    to [q - qty], which is more than [q]; the entry stays where it is and
    the other entries are untouched; nothing is printed and the call
    returns. *)
Theorem remove_item_negative_increases (s : string) (q qty : Z) (d : dict) :
  dict_get s d = Some (PInt q) -> 0 < q -> qty < 0 ->
  let d' := stock_after (remove_item (PStr s) (PInt qty) d) in
  dict_get s d' = Some (PInt (q - qty)) /\ q < q - qty /\
  keys d' = keys d /\
  (forall k, k <> s -> dict_get k d' = dict_get k d) /\
  reported (remove_item (PStr s) (PInt qty) d) = [] /\
  escaped (remove_item (PStr s) (PInt qty) d) = None.
Proof.
  intros Hget Hq Hneg d'. subst d'.
  rewrite (remove_item_numeric s d (PInt q) (PInt qty) q qty Hget); [|done..].
  replace (q - qty <=? 0) with false by lia. simpl.
  split; [apply dict_get_set_eq|]. split; [lia|].
  split; [apply keys_set_present; by rewrite Hget|].
  split; [|done]. intros k Hk. apply dict_get_set_ne. congruence.
Qed.

Lemma remove_item_negative_increases_witness :
  let d := [("apple", PInt 7); ("pear", PInt 2)] in
  let d' := stock_after (remove_item (PStr "apple") (PInt (-3)) d) in
  d' = [("apple", PInt 10); ("pear", PInt 2)] /\
  dict_get "apple" d' = Some (PInt (7 - -3)) /\ 7 < 7 - -3 /\
  keys d' = keys d /\
  (forall k, k <> "apple" -> dict_get k d' = dict_get k d) /\
  reported (remove_item (PStr "apple") (PInt (-3)) d) = [] /\
  escaped (remove_item (PStr "apple") (PInt (-3)) d) = None.
Proof.
  split; [reflexivity|].
  apply (remove_item_negative_increases "apple" 7 (-3)
           [("apple", PInt 7); ("pear", PInt 2)]); [reflexivity|lia|lia].
Defined.

(** ** [check_low_items] *)

Lemma check_low_items_filter (d : dict) (t : Z) :
  int_valued d ->
  check_low_items d (PInt t) =
    Ok (map fst (List.filter (fun kv => quantity (snd kv) <? t) d)).
Proof.
  induction 1 as [|[k v] d Hv _ IH]; [done|].
  cbn [check_low_items List.filter]. simpl in Hv.
  destruct (as_int v) as [q|] eqn:Hq; [|done].
  assert (quantity v = q) as Hquant by (unfold quantity; by rewrite Hq).
  unfold py_lt. rewrite Hq. cbn [bind as_int snd]. rewrite IH, Hquant.
  cbn [bind]. by destruct (q <? t).
Qed.

(** C6: on an inventory of integers and an integer threshold,
    [check_low_items] returns the items whose quantity is strictly below
    the threshold, each in the place the iteration of the inventory gives
    it, and nothing when the threshold is [<= 0] and no quantity is
    negative. *)
Theorem check_low_items_exact (d : dict) (t : Z) :
  int_valued d ->
  exists r,
    check_low_items d (PInt t) = Ok r /\
    r = map fst (List.filter (fun kv => quantity (snd kv) <? t) d) /\
    (forall k, In k r <-> exists v q, In (k, v) d /\ as_int v = Some q /\ q < t) /\
    sublist r (keys d) /\
    (t <= 0 -> (forall kv, In kv d -> 0 <= quantity (snd kv)) -> r = []).
Proof.
  intros Hint. eexists. split; [by apply check_low_items_filter|].
  split; [done|]. split; [|split].
  - intros k. rewrite in_map_iff. split.
    + intros [[k' v] [Hk Hin]]. simpl in Hk. subst k'.
      apply filter_In in Hin as [Hin Hlt]. simpl in Hlt.
      unfold int_valued in Hint. rewrite List.Forall_forall in Hint.
      pose proof (Hint _ Hin) as Hnum. simpl in Hnum. unfold quantity in Hlt.
      destruct (as_int v) as [q|] eqn:Hq; [|done]. exists v, q. simpl in Hlt.
      split; [done|]. split; [done|lia].
    + intros (v & q & Hin & Hq & Hlt). exists (k, v). split; [done|].
      apply filter_In. split; [done|]. simpl. unfold quantity. rewrite Hq. simpl. lia.
  - clear Hint. induction d as [|[k v] d IH]; simpl; [constructor|].
    destruct (quantity v <? t); simpl; by constructor.
  - intros Ht Hnn. clear Hint. induction d as [|[k v] d IH]; [done|].
    cbn [List.filter]. assert (0 <= quantity (snd (k, v))) by (apply Hnn; by left).
    simpl in *. replace (quantity v <? t) with false by lia.
    apply IH. intros kv Hin. apply Hnn. by right.
Qed.

Lemma check_low_items_exact_witness :
  let d := [("apple", PInt 7); ("pear", PInt 2); ("fig", PInt 9)] in
  Forall (fun kv => as_int (snd kv) <> None) d /\
  exists r,
    check_low_items d (PInt 8) = Ok r /\
    r = map fst (List.filter (fun kv => quantity (snd kv) <? 8) d) /\
    (forall k, In k r <-> exists v q, In (k, v) d /\ as_int v = Some q /\ q < 8) /\
    sublist r (keys d) /\
    (8 <= 0 -> (forall kv, In kv d -> 0 <= quantity (snd kv)) -> r = []).
Proof.
  assert (int_valued [("apple", PInt 7); ("pear", PInt 2); ("fig", PInt 9)]) as H
    by (repeat constructor; simpl; discriminate).
  split; [exact H|].
  exact (check_low_items_exact
           [("apple", PInt 7); ("pear", PInt 2); ("fig", PInt 9)] 8 H).
Defined.

Example check_low_items_demo :
  check_low_items [("apple", PInt 7); ("pear", PInt 2); ("fig", PInt 9)] (PInt 8)
  = Ok ["apple"; "pear"].
Proof. reflexivity. Qed.

(** ** [add_item] on its two objects *)

Section AddItem.

Implicit Types (s now : string) (d : dict) (logs : list string)
  (item qty v : pyval).

Lemma no_number_as_int v : no_number v <-> as_int v = None.
Proof. by destruct v. Qed.

Lemma add_item_objs_rejects item qty now logs d :
  add_rejects item qty ->
  exists out, add_item_objs item qty now logs d = AddOutcome d logs out None.
Proof.
  intros [H|[H|[(q & Hq & Hlt)|H]]]; unfold add_item_objs.
  - destruct item; try done; destruct (as_int qty); by eexists.
  - destruct qty; try done; destruct item; by eexists.
  - rewrite Hq. replace (q <? 0) with true by lia.
    destruct item; by eexists.
  - subst item. destruct (as_int qty) as [q|]; [|by eexists].
    destruct (q <? 0); by eexists.
Qed.

(** Past the guards: the sum raises and nothing has changed, or the sum
    is stored; the call is logged then, unless the log entry raises. *)
Lemma add_item_objs_accepts s qty q now logs d :
  s <> EmptyString -> as_int qty = Some q -> 0 <= q ->
  add_item_objs (PStr s) qty now logs d =
    match as_int (qty_of s d) with
    | Some x =>
        match log_entry now qty s with
        | Ok entry =>
            AddOutcome (dict_set s (PInt (x + q)) d) (logs ++ [entry]) [] None
        | Raise e =>
            AddOutcome (dict_set s (PInt (x + q)) d) logs [] (Some e)
        end
    | None =>
        AddOutcome d logs [] (Some (unsupported "+" (qty_of s d) qty))
    end.
Proof.
  intros Hs Hq Hle. unfold add_item_objs. rewrite Hq.
  replace (q <? 0) with false by lia.
  apply String.eqb_neq in Hs. rewrite Hs.
  unfold dict_get_default, qty_of. cbn [hash_key bind].
  unfold py_add. rewrite Hq.
  destruct (as_int (default (PInt 0) (dict_get s d))) eqn:Hx; [done|].
  destruct (default (PInt 0) (dict_get s d)); try done. by destruct qty.
Qed.

(** Every call either changes nothing or is one of the accepted calls,
    which store the sum, and log the call or raise. *)
Lemma add_item_objs_cases item qty now logs d :
  (exists out exc, add_item_objs item qty now logs d = AddOutcome d logs out exc) \/
  (exists s q x, item = PStr s /\ s <> EmptyString /\
     as_int qty = Some q /\ 0 <= q /\
     as_int (qty_of s d) = Some x /\
     ((exists entry, log_entry now qty s = Ok entry /\
         add_item_objs item qty now logs d =
           AddOutcome (dict_set s (PInt (x + q)) d) (logs ++ [entry]) [] None) \/
      (exists e, log_entry now qty s = Raise e /\
         add_item_objs item qty now logs d =
           AddOutcome (dict_set s (PInt (x + q)) d) logs [] (Some e)))).
Proof.
  destruct item as [| | |s|]; try (left; unfold add_item_objs;
    destruct (as_int qty); by do 2 eexists).
  destruct (as_int qty) as [q|] eqn:Hq.
  2:{ left. unfold add_item_objs. rewrite Hq. by do 2 eexists. }
  destruct (Z.ltb_spec q 0) as [Hlt|Hle].
  { left. destruct (add_item_objs_rejects (PStr s) qty now logs d) as [out ->];
      [|by do 2 eexists]. right; right; left. by exists q. }
  destruct (String.eqb_spec s EmptyString) as [->|Hs].
  { left. destruct (add_item_objs_rejects (PStr EmptyString) qty now logs d)
      as [out ->]; [|by do 2 eexists]. by repeat right. }
  rewrite (add_item_objs_accepts s qty q now logs d Hs Hq Hle).
  destruct (as_int (qty_of s d)) as [x|] eqn:Hx.
  - right. exists s, q, x. do 5 (split; [done|]).
    destruct (log_entry now qty s) as [entry|e]; [left|right]; by eexists.
  - left. by do 2 eexists.
Qed.

(** The calls that an exception leaves: the sum raised [TypeError] on a
    stored value that is no number, and nothing has changed; or the log
    entry could not be built, after the sum was stored. *)
Lemma add_item_objs_raises item qty now logs d e :
  raised (add_item_objs item qty now logs d) = Some e ->
  exists s q, item = PStr s /\ s <> EmptyString /\ as_int qty = Some q /\ 0 <= q /\
    ((as_int (qty_of s d) = None /\ e = unsupported "+" (qty_of s d) qty /\
      new_stock (add_item_objs item qty now logs d) = d) \/
     (str_error qty = Some e /\ as_int (qty_of s d) <> None)) /\
    new_logs (add_item_objs item qty now logs d) = logs.
Proof.
  destruct item as [| | |s|]; try (unfold add_item_objs;
    destruct (as_int qty); done).
  destruct (as_int qty) as [q|] eqn:Hq.
  2:{ unfold add_item_objs. by rewrite Hq. }
  destruct (Z.ltb_spec q 0) as [Hlt|Hle].
  { destruct (add_item_objs_rejects (PStr s) qty now logs d) as [out ->];
      [|done]. right; right; left. by exists q. }
  destruct (String.eqb_spec s EmptyString) as [->|Hs].
  { destruct (add_item_objs_rejects (PStr EmptyString) qty now logs d)
      as [out ->]; [|done]. by repeat right. }
  rewrite (add_item_objs_accepts s qty q now logs d Hs Hq Hle).
  destruct (as_int (qty_of s d)) as [x|] eqn:Hx.
  - destruct (log_entry now qty s) as [entry|e'] eqn:Hlog; [done|].
    cbn [raised new_logs new_stock]. intros [= <-].
    exists s, q. do 4 (split; [done|]). split; [|done]. right.
    split; [by apply (log_entry_raises now qty s q)|congruence].
  - cbn [raised new_logs new_stock]. intros [= <-].
    exists s, q. do 4 (split; [done|]). split; [|done]. by left.
Qed.

End AddItem.

(** C2, as amended: [add_item(item, qty)] rejects, leaving the inventory
    and the log as they are, when [item] is not a string, [qty] is not an
    integer, [qty] is negative or [item] is the empty string.  When [item]
    is a non-empty string, [qty] a positive integer and the value stored for
    [item], if there is one, an integer ([int] or [bool]), the call stores
    the old quantity plus [qty] (a new entry with [qty] goes last, an old
    entry keeps its place) and leaves the other entries alone.  It then
    appends one log entry and returns when [qty] has a decimal text; when
    [qty] has more than 4300 digits, building the log entry raises
    [ValueError]: the sum stays stored and nothing is appended.  When the
    value stored for [item] is [None], a string or a dictionary, the call
    raises [TypeError] and changes nothing. *)
Theorem add_item_rejects_or_adds (item qty : pyval) (now : string)
    (logs : list string) (d : dict) :
  let o := add_item_objs item qty now logs d in
  (add_rejects item qty ->
     new_stock o = d /\ new_logs o = logs /\ raised o = None) /\
  (forall s q, item = PStr s -> s <> EmptyString -> as_int qty = Some q -> 0 < q ->
     (forall v, dict_get s d = Some v -> as_int v <> None) ->
     ~ add_rejects item qty /\
     printed o = [] /\
     dict_get s (new_stock o) = Some (PInt (quantity (qty_of s d) + q)) /\
     (forall k, k <> s -> dict_get k (new_stock o) = dict_get k d) /\
     (dict_get s d = None -> new_stock o = d ++ [(s, PInt q)]) /\
     (dict_get s d <> None -> keys (new_stock o) = keys d) /\
     new_stock o <> d /\
     (str_error qty = None ->
        raised o = None /\
        exists txt, str_of_int qty = Ok txt /\
          new_logs o = logs ++ [now +:+ ": Added " +:+ txt +:+ " of " +:+ s]) /\
     (str_error qty <> None ->
        raised o = Some digits_error /\ new_logs o = logs)) /\
  (forall s q v, item = PStr s -> s <> EmptyString -> as_int qty = Some q -> 0 < q ->
     dict_get s d = Some v -> no_number v ->
     exists msg, raised o = Some (TypeError msg) /\
       new_stock o = d /\ new_logs o = logs /\ printed o = []).
Proof.
  intros o. subst o. split; [|split].
  - intros Hrej. destruct (add_item_objs_rejects item qty now logs d Hrej) as [out ->].
    done.
  - intros s q -> Hs Hq Hpos Hnum.
    split.
    { intros [H|[H|[(q' & Hq' & Hlt)|H]]]; try done.
      - destruct qty; done.
      - rewrite Hq in Hq'. injection Hq' as <-. lia.
      - congruence. }
    rewrite (add_item_objs_accepts s qty q now logs d Hs Hq); [|lia].
    assert (exists x, as_int (qty_of s d) = Some x) as [x Hx].
    { unfold qty_of. destruct (dict_get s d) as [v|] eqn:Hget; simpl.
      - specialize (Hnum v eq_refl). destruct (as_int v); [by eexists|done].
      - by eexists. }
    rewrite Hx.
    assert (quantity (qty_of s d) = x) as -> by (unfold quantity; by rewrite Hx).
    assert (dict_set s (PInt (x + q)) d <> d) as Hne.
    { intros Heq. pose proof (dict_get_set_eq s (PInt (x + q)) d) as Hget.
      rewrite Heq in Hget. unfold qty_of in Hx. rewrite Hget in Hx. simpl in Hx.
      injection Hx. lia. }
    assert (dict_get s d = None -> dict_set s (PInt (x + q)) d = d ++ [(s, PInt q)])
      as Hnew.
    { intros Hnone. rewrite keys_set_absent by done.
      unfold qty_of in Hx. rewrite Hnone in Hx. simpl in Hx.
      injection Hx as <-. done. }
    destruct (log_entry now qty s) as [entry|e] eqn:Hlog;
      cbn [raised new_stock new_logs printed].
    + split; [done|]. split; [apply dict_get_set_eq|].
      split; [intros k Hk; apply dict_get_set_ne; congruence|].
      split; [done|]. split; [apply keys_set_present|]. split; [done|].
      split.
      * intros Hfmt. split; [done|].
        destruct (log_entry_ok now qty s q Hq Hfmt) as (txt & Htxt & Hentry).
        exists txt. split; [done|]. congruence.
      * intros Hfmt. destruct (str_error qty) eqn:Herr; [|done].
        destruct (log_entry_ok now qty s q Hq) as (txt & Htxt & Hentry).
        { unfold log_entry in Hlog.
          destruct (str_of_int qty) as [txt|] eqn:Hstr; [|done].
          destruct (str_of_int_ok _ _ Hstr) as [H|H]; congruence. }
        destruct (str_of_int_ok qty txt Htxt) as [H|H]; congruence.
    + pose proof (log_entry_raises now qty s q e Hq Hlog) as Herr.
      assert (e = digits_error) as ->.
      { destruct qty as [|b|z| |]; try done. simpl in Herr.
        destruct (fits_str z); congruence. }
      split; [done|]. split; [apply dict_get_set_eq|].
      split; [intros k Hk; apply dict_get_set_ne; congruence|].
      split; [done|]. split; [apply keys_set_present|]. split; [done|].
      split; [congruence|done].
  - intros s q v -> Hs Hq Hpos Hget Hv. apply no_number_as_int in Hv.
    rewrite (add_item_objs_accepts s qty q now logs d Hs Hq); [|lia].
    unfold qty_of. rewrite Hget. simpl. rewrite Hv. by eexists.
Qed.

Lemma add_item_rejects_or_adds_witness :
  let d := [("apple", PInt 7); ("note", PStr "x")] in
  (new_stock (add_item_objs (PStr "banana") (PInt (-2)) "t" [] d) = d /\
   new_logs (add_item_objs (PStr "banana") (PInt (-2)) "t" [] d) = [] /\
   raised (add_item_objs (PStr "banana") (PInt (-2)) "t" [] d) = None) /\
  new_stock (add_item_objs (PStr "apple") (PInt 3) "t" [] d)
    = [("apple", PInt 10); ("note", PStr "x")] /\
  new_logs (add_item_objs (PStr "apple") (PInt 3) "t" [] d)
    = ["t: Added 3 of apple"] /\
  (raised (add_item_objs (PStr "apple") (PInt 3) "t" [] d) = None /\
   exists txt, str_of_int (PInt 3) = Ok txt /\
     new_logs (add_item_objs (PStr "apple") (PInt 3) "t" [] d)
       = [] ++ ["t" +:+ ": Added " +:+ txt +:+ " of " +:+ "apple"]) /\
  (exists msg,
     raised (add_item_objs (PStr "note") (PInt 3) "t" [] d) = Some (TypeError msg) /\
     new_stock (add_item_objs (PStr "note") (PInt 3) "t" [] d) = d /\
     new_logs (add_item_objs (PStr "note") (PInt 3) "t" [] d) = [] /\
     printed (add_item_objs (PStr "note") (PInt 3) "t" [] d) = []).
Proof.
  pose (d := [("apple", PInt 7); ("note", PStr "x")] : dict).
  destruct (add_item_rejects_or_adds (PStr "banana") (PInt (-2)) "t" [] d)
    as (Hrej & _ & _).
  destruct (add_item_rejects_or_adds (PStr "apple") (PInt 3) "t" [] d)
    as (_ & Hadd & _).
  destruct (add_item_rejects_or_adds (PStr "note") (PInt 3) "t" [] d)
    as (_ & _ & Hraise).
  split.
  { apply Hrej. right; right; left. exists (-2). split; [reflexivity|lia]. }
  split; [reflexivity|]. split; [reflexivity|]. split.
  { destruct (Hadd "apple" 3) as (_ & _ & _ & _ & _ & _ & _ & Hlog & _);
      [reflexivity|discriminate|reflexivity|lia| |apply Hlog; reflexivity].
    intros v. vm_compute. intros [= <-]. discriminate. }
  apply (Hraise "note" 3 (PStr "x")); [reflexivity|discriminate|reflexivity|lia| |];
    [reflexivity|exact I].
Defined.

(** C2, as stated, fails: on [{"apple": "x"}] the call
    [add_item("apple", 1)] meets none of the four conditions and still
    leaves the inventory as it is, and appends nothing; on [{"apple": 5}]
    the call [add_item("apple", 0)] is accepted and the inventory is the
    same afterwards; and [add_item("apple", 10 ** 4300)] increments the
    quantity on the empty inventory and appends no log entry. *)
Lemma add_item_unchanged_without_reject :
  (~ add_rejects (PStr "apple") (PInt 1) /\
   new_stock (add_item_objs (PStr "apple") (PInt 1) "t" [] [("apple", PStr "x")])
     = [("apple", PStr "x")] /\
   new_logs (add_item_objs (PStr "apple") (PInt 1) "t" [] [("apple", PStr "x")])
     = [] /\
   raised (add_item_objs (PStr "apple") (PInt 1) "t" [] [("apple", PStr "x")])
     <> None) /\
  (~ add_rejects (PStr "apple") (PInt 0) /\
   new_stock (add_item_objs (PStr "apple") (PInt 0) "t" [] [("apple", PInt 5)])
     = [("apple", PInt 5)]) /\
  add_item_objs (PStr "apple") (PInt huge) "t" [] []
    = AddOutcome [("apple", PInt (0 + huge))] [] [] (Some digits_error).
Proof.
  assert (forall q, 0 <= q -> ~ add_rejects (PStr "apple") (PInt q)) as Hnot.
  { intros q Hq [H|[H|[(q' & Hq' & Hlt)|H]]]; try done.
    simpl in Hq'. injection Hq' as <-. lia. }
  split; [|split].
  - split; [apply Hnot; lia|]. repeat split. vm_compute. discriminate.
  - split; [apply Hnot; lia|]. reflexivity.
  - rewrite (add_item_objs_accepts "apple" (PInt huge) huge "t" [] []);
      [|done|done|unfold huge; lia].
    unfold qty_of. cbn [dict_get default as_int from_option id].
    by rewrite log_entry_huge.
Qed.

(** ** Runs of calls *)

Section Runs.

Implicit Types (d : dict) (logs : list string) (c : call) (b : Z).

Lemma stock_above_set b k q d :
  b < q -> stock_above b d -> stock_above b (dict_set k (PInt q) d).
Proof.
  intros Hq Hd. unfold stock_above in *. rewrite List.Forall_forall in *.
  intros kv Hin. apply In_dict_set in Hin as [-> | Hin]; [by exists q|by apply Hd].
Qed.

Lemma stock_above_del b k d : stock_above b d -> stock_above b (dict_del k d).
Proof.
  unfold stock_above. rewrite !List.Forall_forall.
  intros Hd kv Hin. apply In_dict_del in Hin as [Hin _]. by apply Hd.
Qed.

Lemma stock_above_get b k d v :
  stock_above b d -> dict_get k d = Some v -> exists q, v = PInt q /\ b < q.
Proof.
  unfold stock_above. rewrite List.Forall_forall.
  intros Hd Hget. apply dict_get_In in Hget. by apply Hd in Hget.
Qed.

Lemma dict_del_set_above b k q d :
  stock_above b d -> stock_above b (dict_del k (dict_set k (PInt q) d)).
Proof.
  unfold stock_above. rewrite !List.Forall_forall. intros Hd kv Hin.
  apply In_dict_del in Hin as [Hin Hne].
  apply In_dict_set in Hin as [-> | Hin]; [done|by apply Hd].
Qed.

(** [remove_item] keeps every quantity above a bound that is not
    positive: what it stores is above 0. *)
Lemma remove_item_stock_above b item qty d :
  b <= 0 -> stock_above b d ->
  stock_above b (stock_after (remove_item item qty d)).
Proof.
  intros Hb Hd.
  destruct (hashable item) eqn:Hh.
  2:{ by destruct (remove_item_unhashable item qty d Hh) as [e ->]. }
  destruct (stored item d) as [old|] eqn:Hs.
  2:{ rewrite remove_item_absent by done. by destruct (str_error item). }
  destruct (as_int qty) as [y|] eqn:Hy.
  2:{ destruct (remove_item_not_numeric item qty d old Hs) as [e ->]; auto. }
  destruct (as_int old) as [x|] eqn:Hx.
  2:{ destruct (remove_item_not_numeric item qty d old Hs) as [e ->]; auto. }
  destruct item; simpl in Hs; try done.
  rewrite (remove_item_numeric _ _ _ _ _ _ Hs Hx Hy). cbn [stock_after].
  destruct (Z.leb_spec (x - y) 0).
  - by apply dict_del_set_above.
  - apply stock_above_set; [lia|done].
Qed.

(** [add_item] keeps the quantities above [-1], and above [0] unless it
    adds the quantity 0, also when an exception leaves it. *)
Lemma add_item_objs_stock_above b item qty now logs d :
  b = -1 \/ (b = 0 /\ as_int qty <> Some 0) ->
  stock_above b d ->
  stock_above b (new_stock (add_item_objs item qty now logs d)).
Proof.
  intros Hb Hd.
  destruct (add_item_objs_cases item qty now logs d)
    as [(out & exc & ->) | (s & q & x & -> & Hs & Hq & Hle & Hx & Heq)]; [done|].
  assert (stock_above b (dict_set s (PInt (x + q)) d)) as Hset.
  { apply stock_above_set; [|done].
    unfold qty_of in Hx. destruct (dict_get s d) as [v|] eqn:Hget; simpl in Hx.
    - apply stock_above_get with (b := b) in Hget as (q' & -> & Hq'); [|done].
      simpl in Hx. injection Hx as <-. lia.
    - injection Hx as <-. destruct Hb as [-> | [-> Hnz]]; [lia|].
      assert (q <> 0) by congruence. lia. }
  by destruct Heq as [(entry & _ & ->) | (e & _ & ->)].
Qed.

(** On an inventory of integers [add_item] returns when [qty] has a
    text. *)
Lemma add_item_objs_returns b item qty now logs d :
  stock_above b d -> str_error qty = None ->
  raised (add_item_objs item qty now logs d) = None.
Proof.
  intros Hd Hfmt.
  destruct (raised (add_item_objs item qty now logs d)) as [e|] eqn:Hr; [|done].
  apply add_item_objs_raises
    in Hr as (s & q & -> & Hs & Hq & Hle & [(Hx & _) | (Herr & _)] & _).
  - unfold qty_of in Hx. destruct (dict_get s d) as [v|] eqn:Hget; [|done].
    by apply stock_above_get with (b := b) in Hget as (q' & -> & _).
  - congruence.
Qed.

(** One call keeps the quantities above [-1], and above [0] unless it
    adds the quantity 0. *)
Lemma run_call_stock_above b c d logs st :
  b = -1 \/ (b = 0 /\ ~ adds_zero c) ->
  stock_above b d -> run_call c (d, logs) = Ok st -> stock_above b (fst st).
Proof.
  intros Hb Hd. destruct c as [item qty now | item qty]; cbn [run_call fst snd].
  - destruct (raised (add_item_objs item qty now logs d)); [done|].
    intros [= <-]. by apply add_item_objs_stock_above.
  - destruct (escaped (remove_item item qty d)); [done|].
    intros [= <-]. apply remove_item_stock_above; [|done].
    destruct Hb as [-> | [-> _]]; lia.
Qed.

(** A call on an inventory of integers returns when the argument it
    formats has a text. *)
Lemma run_call_returns b c d logs :
  stock_above b d -> formats c -> exists st, run_call c (d, logs) = Ok st.
Proof.
  intros Hd Hfmt. destruct c as [item qty now | item qty]; cbn [run_call fst snd].
  - rewrite (add_item_objs_returns b) by done. by eexists.
  - destruct (escaped (remove_item item qty d)) as [e|] eqn:He; [|by eexists].
    apply remove_item_escapes in He as (_ & _ & He). simpl in Hfmt. congruence.
Qed.

Lemma run_calls_stock_above b cs :
  b = -1 \/ (b = 0 /\ Forall (fun c => ~ adds_zero c) cs) ->
  forall st0 st, stock_above b (fst st0) ->
  run_calls cs st0 = Ok st -> stock_above b (fst st).
Proof.
  induction cs as [|c cs IH]; intros Hb [d logs] st Hd; simpl in *.
  - by intros [= <-].
  - destruct (run_call c (d, logs)) as [st1|] eqn:Hc; [|done]. cbn [bind].
    apply IH.
    + destruct Hb as [->|[-> Hall]]; [by left|right].
      split; [done|]. by apply Forall_cons in Hall as [_ ?].
    + apply (run_call_stock_above b c d logs); [|done..].
      destruct Hb as [->|[-> Hall]]; [by left|right].
      split; [done|]. by apply Forall_cons in Hall as [? _].
Qed.

Lemma run_calls_returns cs :
  Forall formats cs ->
  forall st0, nonneg_stock (fst st0) -> exists st, run_calls cs st0 = Ok st.
Proof.
  induction cs as [|c cs IH]; intros Hfmt [d logs] Hd; simpl in *.
  - by eexists.
  - apply Forall_cons in Hfmt as [Hc Hcs].
    destruct (run_call_returns (-1) c d logs Hd Hc) as [st1 Hst1].
    rewrite Hst1. cbn [bind]. apply IH; [done|].
    apply (run_call_stock_above (-1) c d logs); [by left|done..].
Qed.

End Runs.

(** What the code keeps of the invariant: from the empty inventory a run
    of [add_item] and [remove_item] calls leaves no negative quantity, and
    no quantity [<= 0] when no call adds 0; and the run returns when the
    arguments the calls format have a text. *)
Lemma runs_from_empty (cs : list call) :
  (forall st, run_calls cs ([], []) = Ok st ->
     nonneg_stock (fst st) /\
     (Forall (fun c => ~ adds_zero c) cs -> positive_stock (fst st))) /\
  (Forall formats cs -> exists st, run_calls cs ([], []) = Ok st).
Proof.
  split.
  - intros st Hst. split.
    + apply (run_calls_stock_above (-1) cs) with (st0 := ([], [])); [by left| |done].
      by constructor.
    + intros Hnz.
      apply (run_calls_stock_above 0 cs) with (st0 := ([], [])); [by right| |done].
      by constructor.
  - intros Hfmt. apply run_calls_returns; [done|]. by constructor.
Qed.

(** The calls of [main] on its inventory, and the two queries it prints. *)
Example main_scenario :
  exists st,
    run_calls [CallAdd (PStr "apple") (PInt 10) "t0";
               CallAdd (PStr "banana") (PInt (-2)) "t1";
               CallAdd (PInt 123) (PStr "ten") "t2";
               CallRemove (PStr "apple") (PInt 3);
               CallRemove (PStr "orange") (PInt 1)] ([], []) = Ok st /\
    fst st = [("apple", PInt 7)] /\
    get_qty (PStr "apple") (fst st) = Ok (PInt 7) /\
    check_low_items (fst st) (PInt 8) = Ok ["apple"] /\
    check_low_items (fst st) default_threshold = Ok [].
Proof. eexists. split; [reflexivity|]. repeat split. Qed.

(** C1 on the code: from the empty inventory the single call
    [add_item("apple", 0)] is accepted and stores the quantity 0, so an
    entry with a quantity [<= 0] is kept in the mapping; so does the call
    with the defaults of [item] and [qty]. *)
Theorem add_item_stores_zero (now : string) :
  run_calls [CallAdd (PStr "apple") (PInt 0) now] ([], [])
    = Ok ([("apple", PInt 0)], [now +:+ ": Added 0 of apple"]) /\
  ~ positive_stock [("apple", PInt 0)] /\
  run_calls [CallAdd default_item default_qty now] ([], [])
    = Ok ([("default", PInt 0)], [now +:+ ": Added 0 of default"]).
Proof.
  split; [reflexivity|]. split; [|reflexivity].
  intros H. apply Forall_cons in H as [(q & Hq & Hpos) _].
  simpl in Hq. injection Hq as <-. lia.
Qed.

(** ** [get_qty] after [add_item] *)

Section GetQty.

Implicit Types (s k now : string) (d : dict) (logs : list string) (q x : Z).

Lemma get_qty_str s d : get_qty (PStr s) d = Ok (qty_of s d).
Proof. reflexivity. Qed.

Lemma get_qty_hashable (item : pyval) d :
  hashable item = true ->
  get_qty item d = Ok (default (PInt 0) (stored item d)).
Proof. by destruct item. Qed.

Lemma qty_of_set_eq s v d : qty_of s (dict_set s v d) = v.
Proof. unfold qty_of. by rewrite dict_get_set_eq. Qed.

Lemma qty_of_set_ne s k v d : k <> s -> qty_of s (dict_set k v d) = qty_of s d.
Proof. intros H. unfold qty_of. by rewrite dict_get_set_ne. Qed.

(** One valid call: the sum is stored and the call logged, or the call
    raises. *)
Lemma run_add_call k q now d logs :
  valid_add (k, q, now) ->
  run_call (add_call (k, q, now)) (d, logs) =
    match as_int (qty_of k d) with
    | Some x =>
        match log_entry now (PInt q) k with
        | Ok entry => Ok (dict_set k (PInt (x + q)) d, logs ++ [entry])
        | Raise e => Raise e
        end
    | None => Raise (unsupported "+" (qty_of k d) (PInt q))
    end.
Proof.
  intros [Hk Hq]. simpl in Hk, Hq. unfold add_call, run_call. cbn [fst snd].
  rewrite (add_item_objs_accepts k (PInt q) q now logs d Hk eq_refl Hq).
  destruct (as_int (qty_of k d)); [|done].
  by destruct (log_entry now (PInt q) k).
Qed.

Lemma run_adds_sum s cs : forall d logs x st,
  Forall valid_add cs -> qty_of s d = PInt x ->
  run_calls (map add_call cs) (d, logs) = Ok st ->
  qty_of s (fst st) = PInt (x + added s cs).
Proof.
  induction cs as [|[[k q] now] cs IH]; intros d logs x st Hvalid Hx Hrun.
  - simpl in *. injection Hrun as <-. simpl. rewrite Hx. f_equal. lia.
  - apply Forall_cons in Hvalid as [Hc Hvalid].
    cbn [map run_calls] in Hrun. rewrite (run_add_call k q now d logs Hc) in Hrun.
    destruct (as_int (qty_of k d)) as [y|] eqn:Hy; [|done].
    destruct (log_entry now (PInt q) k) as [entry|]; [|done].
    cbn [bind] in Hrun. cbn [added fst snd].
    destruct (String.eqb_spec s k) as [->|Hne].
    + rewrite Hx in Hy. simpl in Hy. injection Hy as <-.
      rewrite (IH _ _ (x + q) st Hvalid (qty_of_set_eq _ _ _) Hrun).
      f_equal; lia.
    + assert (qty_of s (dict_set k (PInt (y + q)) d) = PInt x) as Hx'
        by (rewrite qty_of_set_ne by congruence; done).
      rewrite (IH _ _ x st Hvalid Hx' Hrun). f_equal; lia.
Qed.

Lemma int_valued_set k q d : int_valued d -> int_valued (dict_set k (PInt q) d).
Proof.
  unfold int_valued. rewrite !List.Forall_forall. intros Hd kv Hin.
  apply In_dict_set in Hin as [-> | Hin]; [done|by apply Hd].
Qed.

Lemma int_valued_qty_of k d : int_valued d -> as_int (qty_of k d) <> None.
Proof.
  unfold int_valued, qty_of. rewrite List.Forall_forall. intros Hd.
  destruct (dict_get k d) as [v|] eqn:Hget; [|done].
  apply dict_get_In in Hget. by apply Hd in Hget.
Qed.

Lemma run_adds_return cs : forall d logs,
  Forall valid_add cs -> Forall short_add cs -> int_valued d ->
  exists st, run_calls (map add_call cs) (d, logs) = Ok st /\ int_valued (fst st).
Proof.
  induction cs as [|[[k q] now] cs IH]; intros d logs Hvalid Hshort Hd.
  - by eexists.
  - apply Forall_cons in Hvalid as [Hc Hvalid].
    apply Forall_cons in Hshort as [Hq Hshort].
    cbn [map run_calls]. rewrite (run_add_call k q now d logs Hc).
    pose proof (int_valued_qty_of k d Hd) as Hnum.
    destruct (as_int (qty_of k d)) as [y|]; [|done].
    unfold short_add in Hq. simpl in Hq.
    unfold log_entry, str_of_int, str_int. rewrite Hq. cbn [bind].
    apply IH; [done..|]. by apply int_valued_set.
Qed.

End GetQty.

(** C9, as amended: from an inventory without [item], a run of valid
    [add_item] calls (a non-empty string and an integer [>= 0] each) that
    returns leaves [get_qty(item)] equal to the sum of the quantities added
    for [item], and the run does return when the inventory holds integers
    only and no quantity added has more than 4300 digits; [get_qty] of an
    item that is not in the inventory is 0; and [get_qty] returns for every
    hashable item and every inventory. *)
Theorem get_qty_sums_adds (s : string) (cs : list (string * Z * string))
    (d : dict) (logs : list string) :
  Forall valid_add cs -> dict_get s d = None ->
  (forall st, run_calls (map add_call cs) (d, logs) = Ok st ->
     get_qty (PStr s) (fst st) = Ok (PInt (added s cs))) /\
  (int_valued d -> Forall short_add cs ->
     exists st, run_calls (map add_call cs) (d, logs) = Ok st) /\
  (forall item d0, hashable item = true -> stored item d0 = None ->
     get_qty item d0 = Ok (PInt 0)) /\
  (forall item d0, hashable item = true -> exists v, get_qty item d0 = Ok v).
Proof.
  intros Hvalid Habsent. split; [|split; [|split]].
  - intros st Hrun. rewrite get_qty_str.
    rewrite (run_adds_sum s cs d logs 0 st Hvalid); [done| |done].
    unfold qty_of. by rewrite Habsent.
  - intros Hd Hshort.
    destruct (run_adds_return cs d logs Hvalid Hshort Hd) as (st & Hst & _).
    by exists st.
  - intros item d0 Hh Hs. rewrite get_qty_hashable by done. by rewrite Hs.
  - intros item d0 Hh. rewrite get_qty_hashable by done. by eexists.
Qed.

Lemma get_qty_sums_adds_witness :
  let cs := [("apple", 10, "t0"); ("pear", 2, "t1"); ("apple", 0, "t2");
             ("apple", 5, "t3")] in
  run_calls (map add_call cs) ([("fig", PInt 1)], [])
    = Ok ([("fig", PInt 1); ("apple", PInt 15); ("pear", PInt 2)],
          ["t0: Added 10 of apple"; "t1: Added 2 of pear";
           "t2: Added 0 of apple"; "t3: Added 5 of apple"]) /\
  get_qty (PStr "apple")
    [("fig", PInt 1); ("apple", PInt 15); ("pear", PInt 2)] = Ok (PInt 15) /\
  (exists st, run_calls (map add_call cs) ([("fig", PInt 1)], []) = Ok st) /\
  get_qty (PStr "kiwi") [("fig", PInt 1)] = Ok (PInt 0).
Proof.
  pose (cs := [("apple", 10, "t0"); ("pear", 2, "t1"); ("apple", 0, "t2");
               ("apple", 5, "t3")] : list (string * Z * string)).
  destruct (get_qty_sums_adds "apple" cs [("fig", PInt 1)] [])
    as (Hsum & Hret & Hnever & _).
  { repeat constructor; simpl; done. }
  { reflexivity. }
  split; [reflexivity|]. split; [|split].
  - apply (Hsum ([("fig", PInt 1); ("apple", PInt 15); ("pear", PInt 2)],
                 ["t0: Added 10 of apple"; "t1: Added 2 of pear";
                  "t2: Added 0 of apple"; "t3: Added 5 of apple"])).
    reflexivity.
  - apply Hret; repeat constructor; done.
  - apply Hnever; reflexivity.
Defined.

(** C9, as stated, fails: [get_qty] raises [TypeError] when the item is
    unhashable, here a dictionary. *)
Lemma get_qty_unhashable_raises :
  get_qty (PDict []) [] = Raise (TypeError "unhashable type: 'dict'").
Proof. reflexivity. Qed.

(** ** The optional arguments of [add_item] *)

Section Heap.

Context {A : Type} `{Inhabited A}.
Implicit Types (l : list A) (x y : A).

Lemma insert_last l x y : <[length l := x]> (l ++ [y]) = l ++ [x].
Proof. induction l as [|a l IH]; simpl; [done|]. by rewrite IH. Qed.

Lemma lookup_total_last l y : (l ++ [y]) !!! length l = y.
Proof. induction l as [|a l IH]; simpl; done. Qed.

End Heap.

Section Objects.

Implicit Types (s now txt : string) (d : dict) (logs : list string)
  (item qty : pyval) (q : Z).

Lemma add_accepts_not_rejects item qty s q :
  add_accepts item qty s q -> ~ add_rejects item qty.
Proof.
  intros (-> & Hs & Hq & Hle) [H|[H|[(q' & Hq' & Hlt)|H]]]; try done.
  - by destruct qty.
  - rewrite Hq in Hq'. injection Hq' as <-. lia.
  - congruence.
Qed.

Lemma str_of_int_error qty q txt :
  as_int qty = Some q -> str_of_int qty = Ok txt -> str_error qty = None.
Proof. intros Hq Hs. destruct (str_of_int_ok _ _ Hs); congruence. Qed.

Lemma str_error_digits qty q :
  as_int qty = Some q -> str_error qty <> None ->
  str_of_int qty = Raise digits_error.
Proof.
  destruct qty as [|b|z| |]; try done. simpl. unfold str_int.
  by destruct (fits_str z).
Qed.

(** What an accepted call leaves of its two objects when the value stored
    for the item, if any, is an integer. *)
Lemma add_item_objs_accepted item qty s q now logs d :
  add_accepts item qty s q ->
  (forall v, dict_get s d = Some v -> as_int v <> None) ->
  new_stock (add_item_objs item qty now logs d)
    = dict_set s (PInt (quantity (qty_of s d) + q)) d /\
  printed (add_item_objs item qty now logs d) = [] /\
  (forall txt, str_of_int qty = Ok txt ->
     new_logs (add_item_objs item qty now logs d)
       = logs ++ [entry_text now txt s] /\
     raised (add_item_objs item qty now logs d) = None) /\
  (str_error qty <> None ->
     new_logs (add_item_objs item qty now logs d) = logs /\
     raised (add_item_objs item qty now logs d) = Some digits_error).
Proof.
  intros (-> & Hs & Hq & Hle) Hnum.
  rewrite (add_item_objs_accepts s qty q now logs d Hs Hq Hle).
  assert (exists x, as_int (qty_of s d) = Some x) as [x Hx].
  { unfold qty_of. destruct (dict_get s d) as [v|] eqn:Hget; simpl.
    - specialize (Hnum v eq_refl). destruct (as_int v); [by eexists|done].
    - by eexists. }
  rewrite Hx.
  assert (quantity (qty_of s d) = x) as -> by (unfold quantity; by rewrite Hx).
  unfold log_entry. destruct (str_of_int qty) as [txt|e] eqn:Hstr;
    cbn [bind new_stock new_logs printed raised].
  - split; [done|]. split; [done|]. split; [by intros ? [= <-]|].
    intros Herr. by rewrite (str_of_int_error qty q txt) in Herr.
  - split; [done|]. split; [done|]. split; [done|].
    intros Herr. rewrite (str_error_digits qty q) in Hstr by done.
    by injection Hstr as <-.
Qed.

(** The log of a call that rejects, or whose quantity has no text, is as
    it was. *)
Lemma add_item_objs_no_entry item qty now logs d :
  add_rejects item qty \/ str_error qty <> None ->
  new_logs (add_item_objs item qty now logs d) = logs.
Proof.
  intros Hno.
  destruct (add_item_objs_cases item qty now logs d)
    as [(out & exc & ->) | (s & q & x & -> & Hs & Hq & Hle & Hx & Heq)]; [done|].
  destruct Heq as [(entry & Hlog & ->) | (e & _ & ->)]; [|done].
  destruct Hno as [Hrej | Herr].
  - by apply (add_accepts_not_rejects (PStr s) qty s q) in Hrej.
  - unfold log_entry in Hlog. destruct (str_of_int qty) as [txt|] eqn:Hstr; [|done].
    by rewrite (str_of_int_error qty q txt) in Herr.
Qed.

Lemma add_item_objs_rejected item qty now logs d :
  add_rejects item qty ->
  new_stock (add_item_objs item qty now logs d) = d /\
  new_logs (add_item_objs item qty now logs d) = logs /\
  raised (add_item_objs item qty now logs d) = None.
Proof.
  intros Hrej. by destruct (add_item_objs_rejects item qty now logs d Hrej) as [out ->].
Qed.

End Objects.

(** C10: with [stock_data] left out, [add_item] works on a dictionary it
    has made itself, which is empty: the dictionaries there were are all as
    before and the new one comes after them, still empty when the call
    rejects and holding the one entry of [item] with the quantity [qty]
    when the call is accepted; no reference to it is returned.  With [logs]
    left out the same holds of the lists: the list of the call's own comes
    after the lists there were, which are as before, and holds the one log
    entry of an accepted call, or nothing when the call rejects or [qty]
    has no decimal text ([ValueError] leaves the call then, after the
    entry of the dictionary is stored). *)
Theorem add_item_omitted_arguments (item qty : pyval) (now : string) (h : heap) :
  (forall logs,
     let r := add_item item qty logs None now h in
     (add_rejects item qty ->
        dicts (fst (fst r)) = dicts h ++ [[]] /\ snd r = None) /\
     (forall s q, add_accepts item qty s q ->
        dicts (fst (fst r)) = dicts h ++ [[(s, PInt q)]] /\
        (str_error qty = None -> snd r = None) /\
        (str_error qty <> None -> snd r = Some digits_error))) /\
  (forall stock_data,
     let r := add_item item qty None stock_data now h in
     (exists fresh, loglists (fst (fst r)) = loglists h ++ [fresh]) /\
     (add_rejects item qty \/ str_error qty <> None ->
        loglists (fst (fst r)) = loglists h ++ [[]]) /\
     (forall s q txt d, add_accepts item qty s q -> str_of_int qty = Ok txt ->
        match stock_data with
        | None => d = []
        | Some i => dicts h !! i = Some d
        end ->
        (forall v, dict_get s d = Some v -> as_int v <> None) ->
        loglists (fst (fst r)) = loglists h ++ [[entry_text now txt s]] /\
        snd r = None)).
Proof.
  destruct h as [ds ls]. split.
  - intros logs r. subst r.
    pose (L := match logs with Some i => ls !!! i | None => [] end).
    assert (dicts (fst (fst (add_item item qty logs None now (Heap ds ls))))
              = ds ++ [new_stock (add_item_objs item qty now L [])] /\
            snd (add_item item qty logs None now (Heap ds ls))
              = raised (add_item_objs item qty now L [])) as [-> ->].
    { subst L. destruct logs as [i|]; unfold add_item; cbn -[add_item_objs];
        by rewrite ?lookup_total_last, insert_last. }
    split.
    + intros Hrej.
      by destruct (add_item_objs_rejected item qty now L [] Hrej) as (-> & _ & ->).
    + intros s q Hacc.
      destruct (add_item_objs_accepted item qty s q now L [] Hacc)
        as (-> & _ & Hok & Herr); [done|].
      split; [done|]. split; [|apply Herr].
      intros Hfmt. destruct Hacc as (_ & _ & Hq & _).
      destruct (str_error_int qty q Hq Hfmt) as [txt Htxt]. by apply (Hok txt).
  - intros stock_data r. subst r.
    pose (D := match stock_data with Some i => ds !!! i | None => [] end).
    assert (loglists (fst (fst (add_item item qty None stock_data now (Heap ds ls))))
              = ls ++ [new_logs (add_item_objs item qty now [] D)] /\
            snd (add_item item qty None stock_data now (Heap ds ls))
              = raised (add_item_objs item qty now [] D)) as [-> ->].
    { subst D. destruct stock_data as [i|]; unfold add_item; cbn -[add_item_objs];
        by rewrite ?lookup_total_last, insert_last. }
    split; [by eexists|]. split.
    + intros Hno. by rewrite add_item_objs_no_entry.
    + intros s q txt d Hacc Htxt Hd Hnum.
      assert (D = d) as ->.
      { subst D. destruct stock_data as [i|]; [|done].
        by apply list_lookup_total_correct. }
      destruct (add_item_objs_accepted item qty s q now [] d Hacc Hnum)
        as (_ & _ & Hok & _).
      by destruct (Hok txt Htxt) as [-> ->].
Qed.

Lemma add_item_omitted_arguments_witness :
  let h := Heap [[("apple", PInt 7)]] [["t0: Added 7 of apple"]] in
  dicts (fst (fst (add_item (PStr "apple") (PInt 3) None None "t" h)))
    = [[("apple", PInt 7)]] ++ [[("apple", PInt 3)]] /\
  dicts (fst (fst (add_item (PStr "apple") (PInt (-3)) None None "t" h)))
    = [[("apple", PInt 7)]] ++ [[]] /\
  loglists (fst (fst (add_item (PStr "apple") (PInt 3) None (Some O) "t" h)))
    = [["t0: Added 7 of apple"]] ++ [[entry_text "t" "3" "apple"]] /\
  add_item (PStr "apple") (PInt 3) None (Some O) "t" h
    = (Heap [[("apple", PInt 10)]]
            [["t0: Added 7 of apple"]; ["t: Added 3 of apple"]], [], None).
Proof.
  pose (h := Heap [[("apple", PInt 7)]] [["t0: Added 7 of apple"]]).
  assert (add_accepts (PStr "apple") (PInt 3) "apple" 3) as Hacc.
  { split; [reflexivity|]. split; [discriminate|]. split; [reflexivity|lia]. }
  destruct (add_item_omitted_arguments (PStr "apple") (PInt 3) "t" h) as [Ha Hb].
  destruct (add_item_omitted_arguments (PStr "apple") (PInt (-3)) "t" h) as [Hc _].
  destruct (Ha None) as [_ Ha']. destruct (Hc None) as [Hc' _].
  destruct (Hb (Some O)) as (_ & _ & Hb').
  split; [apply (Ha' "apple" 3 Hacc)|].
  split.
  { apply Hc'. right; right; left. exists (-3). split; [reflexivity|lia]. }
  split; [|reflexivity].
  apply (Hb' "apple" 3 "3" [("apple", PInt 7)] Hacc); [reflexivity..|].
  intros v. vm_compute. intros [= <-]. discriminate.
Defined.

(** With both arguments left out the call leaves one more dictionary and
    one more list behind. *)
Example add_item_omitted_demo :
  add_item (PStr "apple") (PInt 3) None None "t"
    (Heap [[("apple", PInt 7)]] [["t0: Added 7 of apple"]])
  = (Heap [[("apple", PInt 7)]; [("apple", PInt 3)]]
          [["t0: Added 7 of apple"]; ["t: Added 3 of apple"]], [], None).
Proof. reflexivity. Qed.

(** With both arguments given, the call works on the objects they refer
    to. *)
Lemma add_item_given_arguments (item qty : pyval) (now : string) (h : heap)
    (l r : nat) (logs : list string) (d : dict) :
  loglists h !! l = Some logs -> dicts h !! r = Some d ->
  add_item item qty (Some l) (Some r) now h =
    let o := add_item_objs item qty now logs d in
    (Heap (<[r := new_stock o]> (dicts h)) (<[l := new_logs o]> (loglists h)),
     printed o, raised o).
Proof.
  intros Hl Hr. unfold add_item. cbn -[add_item_objs].
  by rewrite (list_lookup_total_correct _ _ _ Hl), (list_lookup_total_correct _ _ _ Hr).
Qed.

(** ** The codec reads back what it writes *)

Module CodecFacts.

Import Codec.

Lemma append_cons c s t : String c s +:+ t = String c (s +:+ t).
Proof. reflexivity. Qed.

Lemma append_empty t : EmptyString +:+ t = t.
Proof. reflexivity. Qed.

Lemma digit_not c : is_digit c = false -> digit c = None.
Proof. unfold digit, is_digit. by intros ->. Qed.

Lemma read_digits_stop acc rest :
  starts_nondigit rest -> read_digits acc rest = (acc, rest).
Proof. destruct rest as [|c r]; simpl; [done|]. intros H. by rewrite digit_not. Qed.

Lemma read_digits_acc u : forall acc p rest,
  acc = Zpos p -> starts_nondigit rest ->
  read_digits acc (NilEmpty.string_of_uint u +:+ rest)
  = (Zpos (Pos.of_uint_acc u p), rest).
Proof.
  induction u as [|u IH|u IH|u IH|u IH|u IH|u IH|u IH|u IH|u IH|u IH];
    intros acc p rest -> Hrest;
    [by apply read_digits_stop|..];
    cbn [NilEmpty.string_of_uint Pos.of_uint_acc];
    rewrite append_cons; cbn [read_digits];
    match goal with
    | |- context [digit ?c] =>
        let v := eval vm_compute in (digit c) in change (digit c) with v
    end; cbv iota; (apply IH; [lia|done]).
Qed.

Lemma read_digits_uint u : forall rest,
  starts_nondigit rest ->
  read_digits 0 (NilEmpty.string_of_uint u +:+ rest)
  = (Z.of_N (Pos.of_uint u), rest).
Proof.
  induction u as [|u IH|u IH|u IH|u IH|u IH|u IH|u IH|u IH|u IH|u IH];
    intros rest Hrest;
    [by apply read_digits_stop|..];
    cbn [NilEmpty.string_of_uint Pos.of_uint];
    rewrite append_cons; cbn [read_digits];
    match goal with
    | |- context [digit ?c] =>
        let v := eval vm_compute in (digit c) in change (digit c) with v
    end; cbv iota; first [by apply IH|by apply read_digits_acc].
Qed.

Lemma nzhead_not_D0 u u' : Decimal.nzhead u <> Decimal.D0 u'.
Proof. induction u; simpl; done. Qed.

Lemma to_uint_head p :
  match Pos.to_uint p with
  | Decimal.Nil | Decimal.D0 _ => False
  | _ => True
  end.
Proof.
  pose proof (Unsigned.to_of (Pos.to_uint p)) as Hnorm.
  rewrite Unsigned.of_to in Hnorm. simpl in Hnorm.
  pose proof (Unsigned.to_uint_nonzero p) as Hnz.
  destruct (Pos.to_uint p) as [|u|u|u|u|u|u|u|u|u|u] eqn:E; try done.
  - rewrite unorm_D0 in Hnorm. unfold Decimal.unorm in Hnorm.
    destruct (Decimal.nzhead u) eqn:En; try done.
    by apply nzhead_not_D0 in En.
Qed.

Ltac eval_chars :=
  repeat match goal with
  | |- context [Ascii.eqb ?a ?b] =>
      let v := eval vm_compute in (Ascii.eqb a b) in
      lazymatch v with
      | true => change (Ascii.eqb a b) with true
      | false => change (Ascii.eqb a b) with false
      end
  | |- context [is_digit ?a] =>
      let v := eval vm_compute in (is_digit a) in
      lazymatch v with
      | true => change (is_digit a) with true
      | false => change (is_digit a) with false
      end
  | |- context [is_ws ?a] =>
      let v := eval vm_compute in (is_ws a) in
      lazymatch v with
      | true => change (is_ws a) with true
      | false => change (is_ws a) with false
      end
  end; cbv iota.

Lemma fits_str_neg p : fits_str (Z.neg p) = fits_str (Z.pos p).
Proof. reflexivity. Qed.

Lemma read_unsigned_print p rest :
  number_end rest -> fits_str (Z.pos p) = true ->
  read_unsigned (NilZero.string_of_uint (Pos.to_uint p) +:+ rest)
  = Got (Z.pos p) rest.
Proof.
  intros [Hrest Hfloat] Hfits.
  pose proof (to_uint_head p) as Hhead. pose proof (Unsigned.of_to p) as Hval.
  pose proof (read_digits_uint (Pos.to_uint p) rest Hrest) as Hread.
  rewrite Hval in Hread. change (Z.of_N (N.pos p)) with (Z.pos p) in Hread.
  destruct (Pos.to_uint p); try done;
    unfold NilZero.string_of_uint; cbn [NilEmpty.string_of_uint] in *;
    rewrite append_cons in *; unfold read_unsigned; eval_chars;
    rewrite Hread; cbn [fst snd]; by rewrite Hfloat, Hfits.
Qed.

Lemma read_int_print z rest :
  number_end rest -> fits_str z = true ->
  read_int (NilZero.string_of_int (Z.to_int z) +:+ rest) = Got z rest.
Proof.
  intros Hrest Hfits. destruct z as [|p|p]; cbn [Z.to_int NilZero.string_of_int].
  - change (NilZero.string_of_uint Decimal.zero) with "0"%string.
    rewrite append_cons, append_empty. unfold read_int, read_unsigned. eval_chars.
    destruct Hrest as [_ Hfloat]. by rewrite Hfloat.
  - pose proof (read_unsigned_print p rest Hrest Hfits) as Hread.
    pose proof (to_uint_head p) as Hhead.
    destruct (Pos.to_uint p); try done;
      unfold NilZero.string_of_uint in *; cbn [NilEmpty.string_of_uint] in *;
      rewrite append_cons in *; unfold read_int; eval_chars; exact Hread.
  - rewrite fits_str_neg in Hfits.
    pose proof (read_unsigned_print p rest Hrest Hfits) as Hread.
    pose proof (to_uint_head p) as Hhead. rewrite append_cons.
    unfold read_int. eval_chars.
    destruct (Pos.to_uint p); try done;
      unfold NilZero.string_of_uint in *; cbn [NilEmpty.string_of_uint] in *;
      rewrite append_cons in *; eval_chars; by rewrite Hread.
Qed.

Lemma append_assoc (a b c : string) : (a +:+ b) +:+ c = a +:+ (b +:+ c).
Proof. induction a as [|x a IH]; [done|]. rewrite !append_cons. by rewrite IH. Qed.

Lemma length_append (a b : string) :
  String.length (a +:+ b) = (String.length a + String.length b)%nat.
Proof. induction a as [|x a IH]; [done|]. rewrite append_cons. simpl. by rewrite IH. Qed.

Lemma read_str_escape c X : read_str (escape c +:+ X) = cons_body c (read_str X).
Proof. destruct c as [[|] [|] [|] [|] [|] [|] [|] [|]]; reflexivity. Qed.

Lemma read_str_print k rest :
  read_str (escape_all k +:+ String quote rest) = Got k rest.
Proof.
  induction k as [|c k IH]; [done|].
  cbn [escape_all]. rewrite append_assoc, read_str_escape, IH. done.
Qed.

Lemma skip_ws_pad n c X :
  is_ws c = false -> skip_ws (pad n +:+ String c X) = String c X.
Proof.
  intros Hc. induction n as [|n IH]; cbn [pad].
  - rewrite append_empty. cbn [skip_ws]. by rewrite Hc.
  - rewrite append_cons. cbn [skip_ws]. eval_chars. done.
Qed.

Lemma skip_ws_nl_pad n c X :
  is_ws c = false -> skip_ws (nl +:+ pad n +:+ String c X) = String c X.
Proof.
  intros Hc. unfold nl. rewrite append_cons, append_empty. cbn [skip_ws].
  eval_chars. by apply skip_ws_pad.
Qed.

Lemma skip_ws_stop c X : is_ws c = false -> skip_ws (String c X) = String c X.
Proof. intros Hc. cbn [skip_ws]. by rewrite Hc. Qed.

Lemma number_head z rest :
  exists c r, NilZero.string_of_int (Z.to_int z) +:+ rest = String c r /\
    (c = "-"%char \/ is_digit c = true).
Proof.
  destruct z as [|p|p]; cbn [Z.to_int NilZero.string_of_int].
  - do 2 eexists. split; [reflexivity|by right].
  - pose proof (to_uint_head p). destruct (Pos.to_uint p); try done;
      (do 2 eexists; split; [reflexivity|by right]).
  - do 2 eexists. split; [reflexivity|by left].
Qed.

Lemma number_head_facts c :
  c = "-"%char \/ is_digit c = true ->
  is_ws c = false /\ Ascii.eqb c "n" = false /\
  Ascii.eqb c "t" = false /\ Ascii.eqb c "f" = false /\ Ascii.eqb c quote = false /\
  Ascii.eqb c "-" || is_digit c = true.
Proof.
  intros [-> | H]; [by vm_compute|].
  destruct c as [[|] [|] [|] [|] [|] [|] [|] [|]]; try discriminate H; by vm_compute.
Qed.

Lemma read_scalar_number z rest :
  number_end rest -> fits_str z = true ->
  read_scalar (skip_ws (String " " (NilZero.string_of_int (Z.to_int z) +:+ rest)))
  = Got (PInt z) rest.
Proof.
  intros Hrest Hfits. pose proof (read_int_print z rest Hrest Hfits) as Hint.
  destruct (number_head z rest) as (c & r & Heq & Hc). rewrite Heq in *.
  apply number_head_facts in Hc as (Hws & H2 & H3 & H4 & H5 & H6).
  cbn [skip_ws]. eval_chars. rewrite Hws. unfold read_scalar.
  rewrite H2, H3, H4, H5, H6. by rewrite Hint.
Qed.

Lemma read_members_print d : forall acc fuel tail,
  d <> [] -> ints_only d -> all_fit d -> NoDup (keys acc ++ keys d) ->
  (length d <= fuel)%nat ->
  read_members fuel acc
    (nl +:+ text_members (text_at 4) 4 d +:+ String "}" tail)
  = Got (PDict (acc ++ d)) tail.
Proof.
  induction d as [|[k v] d IH]; intros acc fuel tail Hne Hints Hfit Hnd Hfuel; [done|].
  apply Forall_cons in Hints as [[z Hz] Hints]. simpl in Hz. subst v.
  apply Forall_cons in Hfit as [Hz Hfit]. specialize (Hz z eq_refl).
  destruct fuel as [|fuel]; [simpl in Hfuel; lia|].
  assert (dict_set k (PInt z) acc = acc ++ [(k, PInt z)]) as Hset.
  { apply keys_set_absent, dict_get_None_keys. intros Hin.
    apply NoDup_app in Hnd as (_ & Hdisj & _).
    apply (Hdisj k); [by apply list_elem_of_In|]. simpl. by left. }
  assert (is_ws quote = false) as Hq by done.
  destruct d as [|kv' d'].
  - cbn [text_members text_at]. unfold dump_str.
    rewrite ?append_assoc, ?append_cons, ?append_empty.
    cbn [read_members]. rewrite ?append_assoc.
    rewrite (skip_ws_nl_pad 4 quote _ Hq). eval_chars.
    rewrite ?append_assoc, ?append_cons, read_str_print.
    rewrite skip_ws_stop by done. eval_chars.
    rewrite read_scalar_number by done.
    unfold nl. rewrite ?append_cons, ?append_empty. cbn [skip_ws]. eval_chars.
    by rewrite Hset.
  - cbn [text_members text_at]. unfold dump_str.
    rewrite ?append_assoc, ?append_cons, ?append_empty.
    cbn [read_members]. rewrite ?append_assoc.
    rewrite (skip_ws_nl_pad 4 quote _ Hq). eval_chars.
    rewrite ?append_assoc, ?append_cons, read_str_print.
    rewrite skip_ws_stop by done. eval_chars.
    rewrite read_scalar_number by done.
    rewrite skip_ws_stop by done. eval_chars.
    rewrite Hset.
    rewrite IH; [by rewrite <- app_assoc|done|done|done| |simpl in *; lia].
    unfold keys. rewrite map_app, <- app_assoc. done.
Qed.

Lemma text_members_length text d :
  (length d <= String.length (text_members text 4 d))%nat.
Proof.
  induction d as [|[k v] d IH]; [done|].
  destruct d as [|kv' d']; cbn [text_members]; rewrite !length_append; simpl in *; lia.
Qed.

(** The decoder reads back the text of an inventory of integers. *)
Lemma load_dumps d :
  dict_wf d -> ints_only d -> all_fit d ->
  load (dumps (PDict d)) = Some (Ok (PDict d)).
Proof.
  intros Hwf Hints Hfit. destruct d as [|kv d]; [done|].
  unfold load, dumps. set (d0 := kv :: d) in *.
  assert (text_at 0 (PDict d0)
          = String "{" (nl +:+ text_members (text_at 4) 4 d0 +:+ String "}" EmptyString))
    as Htext by (destruct kv; reflexivity).
  rewrite Htext. unfold read_value. rewrite skip_ws_stop by done. eval_chars.
  assert (exists X, nl +:+ text_members (text_at 4) 4 d0 +:+ String "}" EmptyString
                    = nl +:+ pad 4 +:+ String quote X) as [X HX].
  { subst d0. destruct kv as [k v]. destruct d; cbn [text_members]; unfold dump_str;
      rewrite !append_assoc, !append_cons; by eexists. }
  rewrite HX at 1. rewrite skip_ws_nl_pad by done. eval_chars.
  rewrite (read_members_print d0 [] _ EmptyString); [done|done|done|done|done|].
  rewrite !length_append.
  pose proof (text_members_length (text_at 4) d0). lia.
Qed.

(** The encoder writes the text of an inventory of integers, all of it
    when every integer has a decimal text and no more than a part of it
    otherwise. *)
Lemma dump_members_text d :
  ints_only d ->
  (all_fit d ->
   dump_members (dump_at 4) 4 d = (text_members (text_at 4) 4 d, None)) /\
  (~ all_fit d ->
   snd (dump_members (dump_at 4) 4 d) = Some digits_error).
Proof.
  induction d as [|[k v] d IH]; intros Hints.
  { split; [done|]. intros H. destruct H. constructor. }
  apply Forall_cons in Hints as [[z Hz] Hints]. simpl in Hz. subst v.
  destruct (IH Hints) as [IHfit IHnot].
  assert (dump_at 4 (PInt z)
          = if fits_str z then (NilZero.string_of_int (Z.to_int z), None)
            else (EmptyString, Some digits_error)) as Hz.
  { cbn [dump_at]. unfold str_int. by destruct (fits_str z). }
  split.
  - intros Hfit. apply Forall_cons in Hfit as [Hfz Hfit].
    specialize (Hfz z eq_refl). simpl in Hfz.
    cbn [dump_members text_members]. rewrite Hz, Hfz. cbn [fst snd text_at].
    destruct d as [|kv' d']; [done|].
    rewrite (IHfit Hfit). cbn [fst snd]. destruct kv'. done.
  - intros Hnot. cbn [dump_members]. rewrite Hz.
    destruct (fits_str z) eqn:Hfz; cbn [fst snd]; [|done].
    destruct d as [|kv' d'].
    { destruct Hnot. constructor; [|constructor]. simpl. by intros ? [= <-]. }
    cbn [snd]. apply IHnot. intros Hfit. apply Hnot.
    constructor; [|done]. simpl. by intros ? [= <-].
Qed.

Lemma all_fit_dec d : all_fit d \/ ~ all_fit d.
Proof.
  induction d as [|[k v] d IH]; [left; constructor|].
  destruct IH as [IH|IH]; [|right; intros H; by apply Forall_cons in H as [_ ?]].
  destruct v as [| |z| |]; try (left; by constructor).
  destruct (fits_str z) eqn:Hz.
  - left. constructor; [|done]. simpl. by intros ? [= <-].
  - right. intros H. apply Forall_cons in H as [H _].
    specialize (H z eq_refl). simpl in H. congruence.
Qed.

Lemma dump_text d :
  ints_only d ->
  (all_fit d -> dump (PDict d) = (dumps (PDict d), None)) /\
  (~ all_fit d -> snd (dump (PDict d)) = Some digits_error).
Proof.
  intros Hints. destruct (dump_members_text d Hints) as [Hfit Hnot].
  destruct d as [|kv d]; [split; [done|]; intros H; destruct H; constructor|].
  unfold dump, dumps. cbn [dump_at text_at Nat.add]. split.
  - intros H. by rewrite (Hfit H).
  - intros H. by rewrite (Hnot H).
Qed.

(** The text of an inventory of integers has no carriage return, so
    reading it in text mode gives the text itself. *)
Lemma no_cr_append a b : no_cr a -> no_cr b -> no_cr (a +:+ b).
Proof.
  induction a as [|c a IH]; [done|]. rewrite append_cons. simpl.
  intros [Hc Ha] Hb. split; [done|by apply IH].
Qed.

Lemma no_cr_escape c : no_cr (escape c).
Proof. destruct c as [[|] [|] [|] [|] [|] [|] [|] [|]]; vm_compute; tauto. Qed.

Lemma no_cr_escape_all s : no_cr (escape_all s).
Proof.
  induction s as [|c s IH]; [done|]. cbn [escape_all].
  apply no_cr_append; [apply no_cr_escape|done].
Qed.

Lemma no_cr_dump_str s : no_cr (dump_str s).
Proof.
  unfold dump_str. rewrite append_cons. split; [done|].
  apply no_cr_append; [apply no_cr_escape_all|done].
Qed.

Lemma no_cr_pad n : no_cr (pad n).
Proof. induction n; simpl; done. Qed.

Lemma no_cr_uint u : no_cr (NilEmpty.string_of_uint u).
Proof. induction u; simpl; done. Qed.

Lemma no_cr_int z : no_cr (NilZero.string_of_int (Z.to_int z)).
Proof.
  assert (forall u, no_cr (NilZero.string_of_uint u)) as Hu.
  { intros u. unfold NilZero.string_of_uint. destruct u; try done;
      apply (no_cr_uint (_ u)). }
  destruct z; cbn [Z.to_int NilZero.string_of_int]; [apply Hu..|].
  split; [done|apply Hu].
Qed.

Lemma no_cr_member k z tail :
  no_cr tail ->
  no_cr (pad 4 +:+ dump_str k +:+ ": " +:+ text_at 4 (PInt z) +:+ tail).
Proof.
  intros Htail. apply no_cr_append; [apply no_cr_pad|].
  apply no_cr_append; [apply no_cr_dump_str|].
  apply no_cr_append; [done|]. apply no_cr_append; [apply no_cr_int|done].
Qed.

Lemma no_cr_text_members d : ints_only d -> no_cr (text_members (text_at 4) 4 d).
Proof.
  induction d as [|[k v] d IH]; intros Hints; [done|].
  apply Forall_cons in Hints as [[z Hz] Hints]. simpl in Hz. subst v.
  destruct d as [|kv' d']; cbn [text_members].
  - by apply no_cr_member.
  - apply no_cr_member. apply no_cr_append; [done|].
    apply no_cr_append; [done|by apply IH].
Qed.

Lemma no_cr_dumps d : ints_only d -> no_cr (dumps (PDict d)).
Proof.
  intros Hints. destruct d as [|kv d]; [done|].
  unfold dumps. cbn [text_at Nat.add].
  apply no_cr_append; [done|]. apply no_cr_append; [done|].
  apply no_cr_append; [by apply no_cr_text_members|done].
Qed.

Lemma universal_newlines_no_cr s : no_cr s -> universal_newlines s = s.
Proof.
  induction s as [|c s IH]; [done|]. simpl. intros [-> Hs]. by rewrite IH.
Qed.

End CodecFacts.

(** ** Persistence *)

Section LoadSave.

Variable json_dump : pyval -> string * option exn.
Variable json_load : string -> option (pyres pyval).
Variable resolve : string -> string.

Implicit Types (fs : gmap string node) (d : dict) (e : exn).

(** The calls of [load_data] that raise. *)
Lemma load_data_raises file_path fs e :
  load_data json_load resolve file_path fs = Raises e ->
  (fs !! resolve file_path = Some Undecodable /\ e = UnicodeDecodeError) \/
  (fs !! resolve file_path = Some Directory /\ e = IsADirectoryError) \/
  (fs !! resolve file_path = Some Denied /\ e = PermissionError) \/
  (exists text, fs !! resolve file_path = Some (File text) /\
     json_load (universal_newlines text) = Some (Raise e) /\
     e <> JSONDecodeError).
Proof.
  unfold load_data. destruct (fs !! resolve file_path) as [[text| | |]|]; try done.
  - destruct (json_load (universal_newlines text)) as [[v|e']|] eqn:Hload; try done.
    destruct e'; try done; intros [= <-]; do 3 right; by exists text.
  - intros [= <-]. by left.
  - intros [= <-]. right. by left.
  - intros [= <-]. do 2 right. by left.
Qed.

(** When [save_data] neither prints nor raises, the text is in the
    file. *)
Lemma save_data_silent d file_path io fs :
  let r := save_data json_dump resolve d file_path io fs in
  save_printed r = [] -> save_raised r = None ->
  io = WriteOk /\ opens_for_writing (fs !! resolve file_path) = true /\
  snd (json_dump (PDict d)) = None /\
  files_after r = <[resolve file_path := File (fst (json_dump (PDict d)))]> fs.
Proof.
  unfold save_data.
  destruct (opens_for_writing (fs !! resolve file_path)); [|done].
  destruct io; try done.
  destruct (snd (json_dump (PDict d))) as [e|]; [|done].
  by destruct (is_OSError e).
Qed.

(** A write that fails with an [OSError] is reported: the file is as it
    was, or holds a part of the text. *)
Lemma save_data_failure d file_path fs n :
  save_data json_dump resolve d file_path OpenFails fs
    = SaveOutcome fs [MsgSaveError] None /\
  save_printed (save_data json_dump resolve d file_path (WriteFails n) fs)
    = [MsgSaveError] /\
  save_raised (save_data json_dump resolve d file_path (WriteFails n) fs) = None.
Proof.
  unfold save_data.
  by destruct (opens_for_writing (fs !! resolve file_path)).
Qed.

End LoadSave.

(** A text that starts no JSON value is rejected by the decoder. *)
Lemma load_not_json (text : string) :
  Codec.not_json (Codec.skip_ws text) = true ->
  Codec.load text = Some (Raise JSONDecodeError).
Proof.
  unfold Codec.load, Codec.read_value.
  destruct (Codec.skip_ws text) as [|c rest]; [done|]. unfold Codec.not_json.
  destruct (Ascii.eqb_spec c "n") as [->|Hn].
  { intros H. apply negb_true_iff in H. cbn -[String.prefix].
    unfold Codec.literal. by rewrite H. }
  destruct (Ascii.eqb_spec c "t") as [->|Ht].
  { intros H. apply negb_true_iff in H. cbn -[String.prefix].
    unfold Codec.literal. by rewrite H. }
  destruct (Ascii.eqb_spec c "f") as [->|Hf].
  { intros H. apply negb_true_iff in H. cbn -[String.prefix].
    unfold Codec.literal. by rewrite H. }
  intros H. apply negb_true_iff in H. unfold Codec.value_start in H.
  repeat (apply orb_false_iff in H as [H ?]).
  apply Ascii.eqb_neq in Hn, Ht, Hf.
  unfold Codec.read_scalar.
  repeat match goal with Hc : _ = false |- _ => rewrite Hc end.
  done.
Qed.




(** The round trip of the codec through the file: what [save_data] wrote
    of an inventory of integers is what [load_data] returns. *)
Lemma load_data_after_write (resolve : string -> string) (d : dict)
    (file_path : string) (fs : gmap string node) :
  dict_wf d -> ints_only d -> all_fit d ->
  load_data Codec.load resolve file_path
    (<[resolve file_path := File (Codec.dumps (PDict d))]> fs)
  = Returns (PDict d) [].
Proof.
  intros Hwf Hints Hfit. unfold load_data. rewrite lookup_insert_eq.
  rewrite CodecFacts.universal_newlines_no_cr by by apply CodecFacts.no_cr_dumps.
  by rewrite CodecFacts.load_dumps.
Qed.




(** * Further properties of the operations *)

(** ** More on dictionaries *)

Section DictMore.

Implicit Types (k : string) (v : pyval) (d : dict).

Lemma dict_set_set k v w d : dict_set k w (dict_set k v d) = dict_set k w d.
Proof.
  induction d as [|[k' v'] d IH]; simpl.
  - by rewrite String.eqb_refl.
  - destruct (String.eqb k k') eqn:E; simpl; rewrite E; [done|by rewrite IH].
Qed.

Lemma dict_del_set k v d : dict_del k (dict_set k v d) = dict_del k d.
Proof.
  induction d as [|[k' v'] d IH]; simpl.
  - by rewrite String.eqb_refl.
  - destruct (String.eqb k k') eqn:E; simpl; rewrite E; [done|by rewrite IH].
Qed.

Lemma dict_del_absent k d : dict_get k d = None -> dict_del k d = d.
Proof.
  induction d as [|[k' v'] d IH]; simpl; [done|].
  destruct (String.eqb k k'); [done|]. intros H. by rewrite IH.
Qed.

Lemma keys_del_sublist k d : sublist (keys (dict_del k d)) (keys d).
Proof.
  induction d as [|[k' v'] d IH]; simpl; [constructor|].
  destruct (String.eqb k k'); simpl; by constructor.
Qed.

Lemma keys_set_incl k v d k0 :
  In k0 (keys (dict_set k v d)) -> k0 = k \/ In k0 (keys d).
Proof.
  unfold keys. rewrite !in_map_iff. intros ([k1 v1] & <- & Hin).
  apply In_dict_set in Hin as [[= -> ->] | Hin]; [by left|right].
  by exists (k1, v1).
Qed.

Lemma keys_del_incl k d k0 : In k0 (keys (dict_del k d)) -> In k0 (keys d).
Proof.
  unfold keys. rewrite !in_map_iff. intros (kv & <- & Hin).
  apply In_dict_del in Hin as [Hin _]. by exists kv.
Qed.

(** In a dictionary every entry is the one its key finds. *)
Lemma In_dict_get k v d : dict_wf d -> In (k, v) d -> dict_get k d = Some v.
Proof.
  unfold dict_wf, keys. induction d as [|[k' v'] d IH]; simpl; [done|].
  intros Hwf. apply NoDup_cons in Hwf as [Hnin Hwf].
  intros [[= -> ->] | Hin]; [by rewrite String.eqb_refl|].
  destruct (String.eqb_spec k k') as [->|Hne]; [|by apply IH].
  destruct Hnin. apply list_elem_of_In, in_map_iff. by exists (k', v).
Qed.

End DictMore.


(** ** More on [remove_item] *)

(** X1: when [item] is stored with the integer [q] and the integer [qty]
    is below [q], [remove_item(item, qty)] stores [q - qty] for [item],
    which [get_qty] then returns; the entry keeps its place, the other
    entries are untouched, nothing is printed and the call returns. *)
Theorem remove_item_keeps_remainder (s : string) (q qty : Z) (d : dict) :
  dict_get s d = Some (PInt q) -> qty < q ->
  remove_item (PStr s) (PInt qty) d
    = RemoveOutcome (dict_set s (PInt (q - qty)) d) [] None /\
  get_qty (PStr s) (stock_after (remove_item (PStr s) (PInt qty) d))
    = Ok (PInt (q - qty)) /\
  keys (stock_after (remove_item (PStr s) (PInt qty) d)) = keys d /\
  (forall k, k <> s ->
     dict_get k (stock_after (remove_item (PStr s) (PInt qty) d)) = dict_get k d).
Proof.
  intros Hget Hlt.
  rewrite (remove_item_numeric s d (PInt q) (PInt qty) q qty Hget); [|done..].
  replace (q - qty <=? 0) with false by lia. cbn [stock_after].
  split; [done|]. split.
  { unfold get_qty, dict_get_default. cbn [hash_key bind].
    by rewrite dict_get_set_eq. }
  split; [apply keys_set_present; by rewrite Hget|].
  intros k Hk. apply dict_get_set_ne. congruence.
Qed.

Lemma remove_item_keeps_remainder_witness :
  let d := [("apple", PInt 10); ("pear", PInt 2)] in
  remove_item (PStr "apple") (PInt 3) d
    = RemoveOutcome [("apple", PInt 7); ("pear", PInt 2)] [] None /\
  get_qty (PStr "apple") (stock_after (remove_item (PStr "apple") (PInt 3) d))
    = Ok (PInt 7).
Proof.
  destruct (remove_item_keeps_remainder "apple" 10 3
              [("apple", PInt 10); ("pear", PInt 2)]) as (H1 & H2 & _);
    [reflexivity|lia|].
  split; [exact H1|exact H2].
Defined.

(** What a call leaves: the inventory as it was, or the entry of the item
    with the difference, or without the entry. *)
Lemma remove_item_shapes (item qty : pyval) (d : dict) :
  stock_after (remove_item item qty d) = d \/
  exists s x, item = PStr s /\ dict_get s d <> None /\
    (stock_after (remove_item item qty d) = dict_set s (PInt x) d \/
     stock_after (remove_item item qty d) = dict_del s (dict_set s (PInt x) d)).
Proof.
  destruct (hashable item) eqn:Hh.
  2:{ destruct (remove_item_unhashable item qty d Hh) as [e ->]. by left. }
  destruct (stored item d) as [old|] eqn:Hs.
  2:{ rewrite remove_item_absent by done. left. by destruct (str_error item). }
  destruct (as_int qty) as [y|] eqn:Hy.
  2:{ destruct (remove_item_not_numeric item qty d old Hs) as [e ->]; auto. }
  destruct (as_int old) as [x|] eqn:Hx.
  2:{ destruct (remove_item_not_numeric item qty d old Hs) as [e ->]; auto. }
  destruct item as [| | |s|]; simpl in Hs; try done.
  rewrite (remove_item_numeric _ _ _ _ _ _ Hs Hx Hy). cbn [stock_after].
  right. exists s, (x - y). split; [done|]. split; [by rewrite Hs|].
  destruct (x - y <=? 0); [by right|by left].
Qed.

Lemma remove_item_keys_incl (item qty : pyval) (d : dict) (k : string) :
  In k (keys (stock_after (remove_item item qty d))) -> In k (keys d).
Proof.
  destruct (remove_item_shapes item qty d)
    as [-> | (s & x & _ & Hpres & [-> | ->])]; [done| |].
  - by rewrite keys_set_present.
  - intros Hin. apply keys_del_incl in Hin. by rewrite keys_set_present in Hin.
Qed.

(** X2: whatever its arguments, [remove_item] touches no entry but the one
    of [item], adds no key and keeps the order of the keys that stay. *)
Theorem remove_item_frame (item qty : pyval) (d : dict) :
  (forall k, item <> PStr k ->
     dict_get k (stock_after (remove_item item qty d)) = dict_get k d) /\
  sublist (keys (stock_after (remove_item item qty d))) (keys d).
Proof.
  destruct (remove_item_shapes item qty d)
    as [-> | (s & x & -> & Hpres & [-> | ->])]; [done| |].
  - split; [|by rewrite keys_set_present].
    intros k Hk. apply dict_get_set_ne. congruence.
  - split.
    + intros k Hk. assert (s <> k) by congruence.
      rewrite dict_get_del_ne, dict_get_set_ne; done.
    + rewrite <- (keys_set_present s (PInt x) d Hpres). apply keys_del_sublist.
Qed.

Lemma remove_item_frame_witness :
  let d := [("apple", PInt 7); ("pear", PInt 2)] in
  dict_get "pear" (stock_after (remove_item (PStr "apple") (PInt 9) d))
    = Some (PInt 2) /\
  sublist (keys (stock_after (remove_item (PStr "apple") (PInt 9) d))) (keys d).
Proof.
  destruct (remove_item_frame (PStr "apple") (PInt 9)
              [("apple", PInt 7); ("pear", PInt 2)]) as [Hother Hsub].
  split; [|exact Hsub]. rewrite Hother; [reflexivity|discriminate].
Defined.

(** ** [add_item] and [remove_item] together *)

(** X4: adding [n >= 0] of an item and then removing [n] of it gives the
    inventory back, when the item was not there or was there with a
    positive integer. *)
Theorem add_then_remove (s : string) (n : Z) (now : string)
    (logs : list string) (d : dict) :
  s <> EmptyString -> 0 <= n ->
  (dict_get s d = None \/ exists q, dict_get s d = Some (PInt q) /\ 0 < q) ->
  stock_after (remove_item (PStr s) (PInt n)
         (new_stock (add_item_objs (PStr s) (PInt n) now logs d))) = d.
Proof.
  intros Hs Hn Hd.
  destruct (add_item_objs_accepted (PStr s) (PInt n) s n now logs d) as (-> & _).
  { done. }
  { intros v Hv. destruct Hd as [Hnone | (q & Hget & _)]; [congruence|].
    rewrite Hget in Hv. by injection Hv as <-. }
  destruct Hd as [Hnone | (q & Hget & Hq)].
  - assert (quantity (qty_of s d) = 0) as ->
      by (unfold qty_of; by rewrite Hnone).
    rewrite (remove_item_numeric s _ (PInt (0 + n)) (PInt n) (0 + n) n);
      [|apply dict_get_set_eq|done|done].
    replace (0 + n - n <=? 0) with true by lia. cbn [stock_after].
    rewrite !dict_del_set. by apply dict_del_absent.
  - assert (quantity (qty_of s d) = q) as ->
      by (unfold qty_of; by rewrite Hget).
    rewrite (remove_item_numeric s _ (PInt (q + n)) (PInt n) (q + n) n);
      [|apply dict_get_set_eq|done|done].
    replace (q + n - n <=? 0) with false by lia. cbn [stock_after].
    rewrite dict_set_set. replace (q + n - n) with q by lia.
    by apply dict_set_same.
Qed.

Lemma add_then_remove_witness :
  stock_after (remove_item (PStr "fig") (PInt 4)
         (new_stock (add_item_objs (PStr "fig") (PInt 4) "t" []
                       [("apple", PInt 7)]))) = [("apple", PInt 7)] /\
  stock_after (remove_item (PStr "apple") (PInt 4)
         (new_stock (add_item_objs (PStr "apple") (PInt 4) "t" []
                       [("apple", PInt 7)]))) = [("apple", PInt 7)].
Proof.
  split.
  - apply (add_then_remove "fig" 4 "t" [] [("apple", PInt 7)]);
      [discriminate|lia|left; reflexivity].
  - apply (add_then_remove "apple" 4 "t" [] [("apple", PInt 7)]);
      [discriminate|lia|right; exists 7; split; [reflexivity|lia]].
Defined.

(** X5: two calls of [add_item] for one item, with the integers [a] and
    [b], leave the inventory one call with [a + b] leaves, when the value
    stored for the item, if any, is an integer; when [a] and [b] have no
    more than 4300 digits both calls return and the log has their two
    entries. *)
Theorem add_item_twice (s : string) (a b : Z) (t1 t2 t : string)
    (logs : list string) (d : dict) :
  s <> EmptyString -> 0 <= a -> 0 <= b ->
  (forall v, dict_get s d = Some v -> as_int v <> None) ->
  let o1 := add_item_objs (PStr s) (PInt a) t1 logs d in
  let o2 := add_item_objs (PStr s) (PInt b) t2 (new_logs o1) (new_stock o1) in
  new_stock o2 = new_stock (add_item_objs (PStr s) (PInt (a + b)) t logs d) /\
  (fits_str a = true -> fits_str b = true ->
   raised o1 = None /\ raised o2 = None /\
   new_logs o2 =
     logs ++ [entry_text t1 (NilZero.string_of_int (Z.to_int a)) s;
              entry_text t2 (NilZero.string_of_int (Z.to_int b)) s]).
Proof.
  intros Hs Ha Hb Hnum o1 o2. subst o1 o2.
  destruct (add_item_objs_accepted (PStr s) (PInt a) s a t1 logs d)
    as (Hst1 & _ & Hok1 & _); [done|done|].
  destruct (add_item_objs_accepted (PStr s) (PInt (a + b)) s (a + b) t logs d)
    as (-> & _); [split; [done|]; split; [done|]; split; [done|lia]|done|].
  rewrite Hst1.
  set (x := quantity (qty_of s d)) in *.
  split.
  - destruct (add_item_objs_accepted (PStr s) (PInt b) s b t2
                (new_logs (add_item_objs (PStr s) (PInt a) t1 logs d))
                (dict_set s (PInt (x + a)) d)) as (-> & _); [done| |].
    { intros v. rewrite dict_get_set_eq. by intros [= <-]. }
    rewrite qty_of_set_eq, dict_set_set. cbn. do 2 f_equal. lia.
  - intros Hfa Hfb.
    destruct (Hok1 (NilZero.string_of_int (Z.to_int a))) as [-> ->].
    { cbn. unfold str_int. by rewrite Hfa. }
    destruct (add_item_objs_accepted (PStr s) (PInt b) s b t2
                (logs ++ [entry_text t1 (NilZero.string_of_int (Z.to_int a)) s])
                (dict_set s (PInt (x + a)) d)) as (_ & _ & Hok2 & _); [done| |].
    { intros v. rewrite dict_get_set_eq. by intros [= <-]. }
    destruct (Hok2 (NilZero.string_of_int (Z.to_int b))) as [-> ->].
    { cbn. unfold str_int. by rewrite Hfb. }
    by rewrite <- app_assoc.
Qed.

Lemma add_item_twice_witness :
  let d := [("apple", PInt 7)] in
  let o1 := add_item_objs (PStr "apple") (PInt 2) "t1" [] d in
  let o2 := add_item_objs (PStr "apple") (PInt 3) "t2" (new_logs o1) (new_stock o1) in
  new_stock o2 = [("apple", PInt 12)] /\
  new_stock o2 = new_stock (add_item_objs (PStr "apple") (PInt (2 + 3)) "t" [] d) /\
  new_logs o2 = [] ++ [entry_text "t1" "2" "apple"; entry_text "t2" "3" "apple"].
Proof.
  destruct (add_item_twice "apple" 2 3 "t1" "t2" "t" [] [("apple", PInt 7)])
    as [Hstock Hlogs]; [discriminate|lia|lia| |].
  { intros v. vm_compute. intros [= <-]. discriminate. }
  split; [reflexivity|]. split; [exact Hstock|].
  by destruct Hlogs as (_ & _ & ->).
Defined.

Example add_item_raises_demo :
  raised (add_item_objs (PStr "note") (PInt 1) "t" [] [("note", PStr "x")])
    = Some (TypeError "unsupported operand type(s) for +: 'str' and 'int'") /\
  raised (add_item_objs (PStr "note") (PInt (-1)) "t" [] [("note", PStr "x")])
    = None.
Proof. split; reflexivity. Qed.

(** ** More on runs of calls *)

Section RunsMore.

Implicit Types (d : dict) (logs : list string) (c : call).

Lemma keys_nonempty_set k v d :
  k <> EmptyString -> keys_nonempty d -> keys_nonempty (dict_set k v d).
Proof.
  unfold keys_nonempty. rewrite !List.Forall_forall.
  intros Hk Hd k0 Hin. apply keys_set_incl in Hin as [-> | Hin]; [done|by apply Hd].
Qed.

Lemma run_call_keys_nonempty c d logs st :
  keys_nonempty d -> run_call c (d, logs) = Ok st -> keys_nonempty (fst st).
Proof.
  intros Hd. destruct c as [item qty now | item qty]; cbn [run_call fst snd].
  - destruct (raised (add_item_objs item qty now logs d)); [done|].
    intros [= <-]. cbn [fst].
    destruct (add_item_objs_cases item qty now logs d)
      as [(out & exc & ->) | (s & q & x & -> & Hs & Hq & Hle & _ & Heq)]; [done|].
    destruct Heq as [(entry & _ & ->) | (e & _ & ->)]; by apply keys_nonempty_set.
  - destruct (escaped (remove_item item qty d)); [done|].
    intros [= <-]. cbn [fst]. unfold keys_nonempty in *.
    rewrite List.Forall_forall in *. intros k Hin.
    apply remove_item_keys_incl in Hin. by apply Hd.
Qed.

Lemma run_call_log c d logs st :
  run_call c (d, logs) = Ok st ->
  exists new, snd st = logs ++ new /\
    (length new <= count_adds [c])%nat.
Proof.
  destruct c as [item qty now | item qty]; cbn [run_call fst snd count_adds].
  - destruct (raised (add_item_objs item qty now logs d)); [done|].
    intros [= <-]. cbn [snd].
    destruct (add_item_objs_cases item qty now logs d)
      as [(out & exc & ->) | (s & q & x & _ & _ & _ & _ & _ & Heq)];
      cbn [new_logs].
    + exists []. split; [by rewrite app_nil_r|simpl; lia].
    + destruct Heq as [(entry & _ & ->) | (e & _ & ->)]; cbn [new_logs].
      * eexists. split; [done|simpl; lia].
      * exists []. split; [by rewrite app_nil_r|simpl; lia].
  - destruct (escaped (remove_item item qty d)); [done|].
    intros [= <-]. exists []. split; [by rewrite app_nil_r|simpl; lia].
Qed.

End RunsMore.




(** X7: a run never stores the empty string as a key: when no key of the
    inventory is empty before, none is after. *)
Theorem runs_keep_keys_nonempty (cs : list call) (d : dict)
    (logs : list string) (st : dict * list string) :
  keys_nonempty d -> run_calls cs (d, logs) = Ok st -> keys_nonempty (fst st).
Proof.
  revert d logs. induction cs as [|c cs IH]; intros d logs Hd Hrun.
  - injection Hrun as <-. done.
  - cbn [run_calls] in Hrun.
    destruct (run_call c (d, logs)) as [[d1 logs1]|e] eqn:Hc; [|done].
    cbn [bind] in Hrun. apply (IH d1 logs1); [|done].
    apply (run_call_keys_nonempty c d logs (d1, logs1) Hd Hc).
Qed.

Lemma runs_keep_keys_nonempty_witness :
  run_calls [CallAdd (PStr EmptyString) (PInt 4) "t0";
             CallAdd (PStr "pear") (PInt 2) "t1"] ([("apple", PInt 7)], [])
    = Ok ([("apple", PInt 7); ("pear", PInt 2)], ["t1: Added 2 of pear"]) /\
  keys_nonempty [("apple", PInt 7); ("pear", PInt 2)].
Proof.
  split; [reflexivity|].
  apply (runs_keep_keys_nonempty
           [CallAdd (PStr EmptyString) (PInt 4) "t0";
            CallAdd (PStr "pear") (PInt 2) "t1"]
           [("apple", PInt 7)] []
           ([("apple", PInt 7); ("pear", PInt 2)], ["t1: Added 2 of pear"])).
  - repeat constructor. discriminate.
  - reflexivity.
Defined.

(** X8: the log only grows, by at most one entry for each [add_item] call
    of the run; [remove_item] calls never log. *)
Theorem runs_extend_log (cs : list call) (d : dict) (logs : list string)
    (st : dict * list string) :
  run_calls cs (d, logs) = Ok st ->
  exists new, snd st = logs ++ new /\ (length new <= count_adds cs)%nat.
Proof.
  revert d logs. induction cs as [|c cs IH]; intros d logs Hrun.
  - injection Hrun as <-. exists []. split; [by rewrite app_nil_r|done].
  - cbn [run_calls] in Hrun.
    destruct (run_call c (d, logs)) as [[d1 logs1]|e] eqn:Hc; [|done].
    cbn [bind] in Hrun.
    destruct (run_call_log c d logs _ Hc) as (new1 & Hlog1 & Hlen1).
    destruct (IH d1 logs1 Hrun) as (new2 & Hlog2 & Hlen2).
    simpl in Hlog1. subst logs1.
    exists (new1 ++ new2). split; [by rewrite Hlog2, app_assoc|].
    rewrite length_app. destruct c; simpl in *; lia.
Qed.

Lemma runs_extend_log_witness :
  let cs := [CallAdd (PStr "pear") (PInt 2) "t1";
             CallAdd (PStr "pear") (PInt (-2)) "t2";
             CallRemove (PStr "pear") (PInt 1)] in
  run_calls cs ([], ["t0: Added 7 of apple"])
    = Ok ([("pear", PInt 1)], ["t0: Added 7 of apple"; "t1: Added 2 of pear"]) /\
  exists new, ["t0: Added 7 of apple"; "t1: Added 2 of pear"]
              = ["t0: Added 7 of apple"] ++ new /\
              (length new <= count_adds cs)%nat.
Proof.
  split; [reflexivity|].
  apply (runs_extend_log
           [CallAdd (PStr "pear") (PInt 2) "t1";
            CallAdd (PStr "pear") (PInt (-2)) "t2";
            CallRemove (PStr "pear") (PInt 1)]
           [] ["t0: Added 7 of apple"]
           ([("pear", PInt 1)], ["t0: Added 7 of apple"; "t1: Added 2 of pear"])).
  reflexivity.
Defined.


(** ** More on [check_low_items] *)

Lemma py_lt_no_number (v : pyval) (t : Z) :
  no_number v -> exists msg, py_lt v (PInt t) = Raise (TypeError msg).
Proof. destruct v; try done; intros _; by eexists. Qed.

(** X10: with an integer threshold, one stored value that is [None], a
    string or a dictionary makes [check_low_items] raise [TypeError],
    wherever it is in the inventory and whatever the other values are. *)
Theorem check_low_items_raises (d : dict) (t : Z) :
  Exists (fun kv => no_number (snd kv)) d ->
  exists msg, check_low_items d (PInt t) = Raise (TypeError msg).
Proof.
  induction d as [|[k v] d IH]; intros Hex; [by apply Exists_nil in Hex|].
  cbn [check_low_items].
  destruct (as_int v) as [q|] eqn:Hv.
  - apply Exists_cons in Hex as [Hno | Hex].
    { apply no_number_as_int in Hno. simpl in Hno. congruence. }
    destruct (IH Hex) as [msg Hmsg]. exists msg.
    unfold py_lt. rewrite Hv. cbn [as_int bind]. by rewrite Hmsg.
  - apply no_number_as_int in Hv.
    destruct (py_lt_no_number v t Hv) as [msg ->]. by exists msg.
Qed.

Lemma check_low_items_raises_witness :
  exists msg,
    check_low_items [("apple", PInt 7); ("note", PStr "x"); ("pear", PInt 2)]
      (PInt 5) = Raise (TypeError msg).
Proof.
  apply (check_low_items_raises
           [("apple", PInt 7); ("note", PStr "x"); ("pear", PInt 2)] 5).
  apply Exists_cons_tl, Exists_cons_hd. exact I.
Defined.

Example check_low_items_raises_demo :
  check_low_items [("apple", PInt 7); ("note", PStr "x"); ("pear", PInt 2)] (PInt 5)
  = Raise (TypeError "'<' not supported between instances of 'str' and 'int'").
Proof. reflexivity. Qed.


Lemma filter_below_sublist (d : dict) (t1 t2 : Z) :
  t1 <= t2 ->
  sublist (map fst (List.filter (fun kv => quantity (snd kv) <? t1) d))
          (map fst (List.filter (fun kv => quantity (snd kv) <? t2) d)).
Proof.
  intros Hle. induction d as [|[k v] d IH]; cbn [List.filter]; [constructor|].
  cbn [snd]. destruct (Z.ltb_spec (quantity v) t1), (Z.ltb_spec (quantity v) t2);
    cbn [map fst]; try lia; first [done | by constructor].
Qed.

(** X11: on an inventory of integers, raising the threshold only adds
    items to the result of [check_low_items], and a threshold above every
    quantity returns all the keys, in order. *)
Theorem check_low_items_monotone (d : dict) (t1 t2 : Z) :
  int_valued d -> t1 <= t2 ->
  exists r1 r2,
    check_low_items d (PInt t1) = Ok r1 /\ check_low_items d (PInt t2) = Ok r2 /\
    sublist r1 r2 /\
    ((forall kv, In kv d -> quantity (snd kv) < t2) -> r2 = keys d).
Proof.
  intros Hd Hle. do 2 eexists.
  split; [by apply check_low_items_filter|].
  split; [by apply check_low_items_filter|].
  split; [by apply filter_below_sublist|].
  intros Hall. clear Hd. unfold keys.
  induction d as [|[k v] d IH]; [done|]. cbn [List.filter snd].
  assert (quantity (snd (k, v)) < t2) as Hq by (apply Hall; by left).
  cbn [snd] in Hq. replace (quantity v <? t2) with true by lia.
  cbn [map fst]. f_equal. apply IH. intros kv Hin. apply Hall. by right.
Qed.

Lemma check_low_items_monotone_witness :
  let d := [("apple", PInt 7); ("pear", PInt 2); ("fig", PInt 9)] in
  check_low_items d (PInt 5) = Ok ["pear"] /\
  check_low_items d (PInt 10) = Ok ["apple"; "pear"; "fig"] /\
  exists r1 r2,
    check_low_items d (PInt 5) = Ok r1 /\ check_low_items d (PInt 10) = Ok r2 /\
    sublist r1 r2 /\
    ((forall kv, In kv d -> quantity (snd kv) < 10) -> r2 = keys d).
Proof.
  split; [reflexivity|]. split; [reflexivity|].
  apply (check_low_items_monotone
           [("apple", PInt 7); ("pear", PInt 2); ("fig", PInt 9)] 5 10); [|lia].
  repeat constructor; simpl; discriminate.
Defined.

(** X12: on an inventory of integers, an item is in the result of
    [check_low_items] exactly when it is a key of the inventory and
    [get_qty] of it is below the threshold; and no item is listed twice. *)
Theorem check_low_items_get_qty (d : dict) (t : Z) (r : list string) :
  dict_wf d -> int_valued d -> check_low_items d (PInt t) = Ok r ->
  (forall k, In k r <->
     In k (keys d) /\
     exists v q, get_qty (PStr k) d = Ok v /\ as_int v = Some q /\ q < t) /\
  NoDup r.
Proof.
  intros Hwf Hd. rewrite check_low_items_filter by done. intros [= <-].
  split.
  - intros k. rewrite in_map_iff. split.
    + intros ([k' v] & Hk & Hin). simpl in Hk. subst k'.
      apply filter_In in Hin as [Hin Hlt]. cbn [snd] in Hlt.
      split; [apply in_map_iff; by exists (k, v)|].
      unfold int_valued in Hd. rewrite List.Forall_forall in Hd.
      pose proof (Hd _ Hin) as Hnum. cbn [snd] in Hnum.
      unfold quantity in Hlt. destruct (as_int v) as [q|] eqn:Hq; [|done].
      exists v, q. rewrite get_qty_str. unfold qty_of.
      rewrite (In_dict_get k v d Hwf Hin). cbn in Hlt.
      split; [done|]. split; [done|lia].
    + intros (Hkey & v & q & Hget & Hq & Hlt).
      apply in_map_iff in Hkey as ([k' v'] & Hk & Hin). simpl in Hk. subst k'.
      rewrite get_qty_str in Hget. unfold qty_of in Hget.
      rewrite (In_dict_get k v' d Hwf Hin) in Hget. injection Hget as ->.
      exists (k, v). split; [done|]. apply filter_In. split; [done|].
      cbn [snd]. unfold quantity. rewrite Hq. cbn. lia.
  - clear Hd. unfold dict_wf, keys in Hwf.
    induction d as [|[k v] d IH]; cbn [List.filter map]; [constructor|].
    cbn [map fst] in Hwf. apply NoDup_cons in Hwf as [Hnin Hwf].
    destruct (quantity (snd (k, v)) <? t); [|by apply IH].
    cbn [map fst]. apply NoDup_cons. split; [|by apply IH].
    intros Hin. apply Hnin. apply list_elem_of_In in Hin. apply list_elem_of_In.
    apply in_map_iff in Hin as (kv & Hk & Hin). apply filter_In in Hin as [Hin _].
    apply in_map_iff. by exists kv.
Qed.

Lemma check_low_items_get_qty_witness :
  let d := [("apple", PInt 7); ("pear", PInt 2); ("fig", PInt 9)] in
  (forall k, In k ["apple"; "pear"] <->
     In k (keys d) /\
     exists v q, get_qty (PStr k) d = Ok v /\ as_int v = Some q /\ q < 8) /\
  NoDup ["apple"; "pear"].
Proof.
  apply (check_low_items_get_qty
           [("apple", PInt 7); ("pear", PInt 2); ("fig", PInt 9)] 8).
  - repeat constructor; rewrite ?list_elem_of_In; simpl; intuition discriminate.
  - repeat constructor; simpl; discriminate.
  - reflexivity.
Defined.


(** ** More on the arguments of [add_item] *)

(** X15: with both [logs] and [stock_data] given, [add_item] makes no new
    object and touches no other dictionary or list than the two the
    arguments refer to.  A call that rejects leaves these two as they are;
    an accepted call, when the value stored for the item, if any, is an
    integer and the quantity has a decimal text, stores the sum in the
    caller's dictionary and appends the entry to the caller's list. *)
Theorem add_item_mutates_arguments (item qty : pyval) (now : string) (h : heap)
    (l r : nat) (logs : list string) (d : dict) :
  loglists h !! l = Some logs -> dicts h !! r = Some d ->
  let res := add_item item qty (Some l) (Some r) now h in
  let h' := fst (fst res) in
  (add_rejects item qty -> h' = h /\ snd res = None) /\
  (forall s q txt, add_accepts item qty s q ->
     (forall v, dict_get s d = Some v -> as_int v <> None) ->
     str_of_int qty = Ok txt ->
     res = (Heap (<[r := dict_set s (PInt (quantity (qty_of s d) + q)) d]> (dicts h))
                 (<[l := logs ++ [entry_text now txt s]]> (loglists h)),
            [], None) /\
     dicts h' !! r = Some (dict_set s (PInt (quantity (qty_of s d) + q)) d) /\
     loglists h' !! l = Some (logs ++ [entry_text now txt s])) /\
  length (dicts h') = length (dicts h) /\
  length (loglists h') = length (loglists h) /\
  (forall r', r' <> r -> dicts h' !! r' = dicts h !! r') /\
  (forall l', l' <> l -> loglists h' !! l' = loglists h !! l').
Proof.
  intros Hl Hr res h'. subst res h'.
  rewrite (add_item_given_arguments item qty now h l r logs d Hl Hr).
  cbn [fst snd dicts loglists].
  split; [|split].
  - intros Hrej.
    destruct (add_item_objs_rejected item qty now logs d Hrej) as (-> & -> & ->).
    rewrite !list_insert_id by done. by destruct h.
  - intros s q txt Hacc Hnum Htxt.
    destruct (add_item_objs_accepted item qty s q now logs d Hacc Hnum)
      as (-> & -> & Hok & _).
    destruct (Hok txt Htxt) as [-> ->].
    split; [done|].
    split; apply list_lookup_insert_eq; by eapply lookup_lt_Some.
  - split; [apply length_insert|]. split; [apply length_insert|].
    split; intros i Hi; by apply list_lookup_insert_ne.
Qed.

Lemma add_item_mutates_arguments_witness :
  let h := Heap [[("pear", PInt 2)]; [("apple", PInt 7)]] [["t0"]] in
  add_item (PStr "apple") (PInt 3) (Some 0%nat) (Some 1%nat) "t" h
  = (Heap [[("pear", PInt 2)]; [("apple", PInt 10)]]
          [["t0"; "t: Added 3 of apple"]], [], None) /\
  fst (fst (add_item (PStr "apple") (PInt (-3)) (Some 0%nat) (Some 1%nat) "t" h))
  = h.
Proof.
  pose (h := Heap [[("pear", PInt 2)]; [("apple", PInt 7)]] [["t0"]]).
  destruct (add_item_mutates_arguments (PStr "apple") (PInt 3) "t" h
              0%nat 1%nat ["t0"] [("apple", PInt 7)]) as (_ & Hacc & _);
    [reflexivity|reflexivity|].
  destruct (add_item_mutates_arguments (PStr "apple") (PInt (-3)) "t" h
              0%nat 1%nat ["t0"] [("apple", PInt 7)]) as (Hrej & _);
    [reflexivity|reflexivity|].
  split.
  - destruct (Hacc "apple" 3 "3") as (Heq & _); [| |reflexivity|exact Heq].
    + split; [reflexivity|]. split; [discriminate|]. split; [reflexivity|lia].
    + intros v. vm_compute. intros [= <-]. discriminate.
  - apply Hrej. right; right; left. exists (-3). split; [reflexivity|lia].
Defined.
